(** * btrfs-indexer2: a shallow embedding of [btrfs-lightning-search/btrfs-indexer2.c]

    The C program gathers one [file_entry] per filesystem object into a global,
    singly linked list ([file_list], [file_count]) and prints the list as JSON
    or CSV.  Every C function the development reasons about is transcribed
    below under its own name.

    Conventions of the embedding:
    - the two globals and the two output streams are threaded through an
      explicit [state]; a function of type [cmd] is a C function that
      returns nothing, a function of type [proc] one during which the
      process can be killed;
    - a C string is a [string] (its bytes without the terminating NUL);
    - [uint64_t], [uint32_t], [size_t] and [int] values are in [Z], with
      the conversions that wrap written out;
    - system calls are replaced by the results they returned: the tree of
      [lstat], [opendir] and [readdir] results, the results of [stat],
      [open], [ioctl] and [getopt], and the outcome of every [malloc];
    - the call stack is not bounded: a recursive call returns whatever its
      depth;
    - what depends on the compiler or the C library (the signedness of plain
      [char], the layout of a nested structure, [gmtime] and [strftime]) is
      a parameter. *)

From Stdlib Require Import ZArith List Bool Lia.
From Stdlib Require Import Strings.String Strings.Ascii Strings.Byte Numbers.DecimalString.
Import ListNotations.

Open Scope string_scope.
Open Scope Z_scope.

(** ** Text *)

(** Characters that cannot be written inside a string literal. *)
Definition dquote : ascii := ascii_of_nat 34.
Definition backslash : ascii := ascii_of_nat 92.
Definition newline : ascii := ascii_of_nat 10.
Definition carriage_return : ascii := ascii_of_nat 13.
Definition tab : ascii := ascii_of_nat 9.

Definition chr (c : ascii) : string := String c EmptyString.
Definition q : string := chr dquote.
Definition nl : string := chr newline.
Definition cr : string := chr carriage_return.

(** [printf]'s [%d], [%u], [%lu] and [%ld] conversions. *)
Definition decimal (z : Z) : string := NilZero.string_of_int (Z.to_int z).

(** The first [n] characters of a C string: what [strncpy (dst, src, n)]
    followed by [dst[n] = '\0'] leaves in [dst], and what [snprintf] keeps of
    its output in a buffer of [n + 1] bytes. *)
Fixpoint str_take (n : nat) (s : string) : string :=
  match n, s with
  | O, _ => EmptyString
  | _, EmptyString => EmptyString
  | S n', String c s' => String c (str_take n' s')
  end.

(** ** Machine integers *)

Definition UINT32_MOD : Z := 2 ^ 32.
Definition UINT64_MOD : Z := 2 ^ 64.
Definition INT_MAX : Z := 2 ^ 31 - 1.

(** Conversion to [uint64_t], [uint32_t] and [size_t] arithmetic. *)
Definition to_u64 (z : Z) : Z := z mod UINT64_MOD.
Definition to_u32 (z : Z) : Z := z mod UINT32_MOD.

(** The value an [int] holds after an operation whose exact result is [z].
    Past [INT_MAX] the C standard leaves the result of [file_count++]
    undefined; the model takes the two's complement wrap-around that the
    compilers of the platform generate for it. *)
Definition to_int (z : Z) : Z := (z + 2 ^ 31) mod UINT32_MOD - 2 ^ 31.

(** Conversion of a [uint64_t] to the signed 64-bit [time_t]. *)
Definition to_time_t (z : Z) : Z :=
  let u := to_u64 z in if u <? 2 ^ 63 then u else u - UINT64_MOD.

(** [S_ISDIR (m)] of <sys/stat.h>: [(m & S_IFMT) == S_IFDIR]. *)
Definition S_IFMT : Z := 61440.   (* 0170000 *)
Definition S_IFDIR : Z := 16384.  (* 0040000 *)
Definition S_ISDIR (m : Z) : bool := Z.land m S_IFMT =? S_IFDIR.

(** ** The record store *)

(** [struct file_entry] without its [next] pointer: the list is a Rocq list
    whose head is the C variable [file_list]. *)
Record file_entry : Type := mk_file_entry {
  fe_path : string;   (* char path[4096] *)
  fe_name : string;   (* char name[256]  *)
  fe_inode : Z;       (* uint64_t *)
  fe_size : Z;        (* uint64_t *)
  fe_mtime : Z;       (* uint64_t *)
  fe_mode : Z         (* uint32_t *)
}.

(** The two globals, the two output streams, and the results of the [malloc]
    calls still to come ([true]: a block is returned, [false]: NULL; once the
    script is used up every call succeeds).  [file_count] is a C [int]: its
    values are kept between [- 2 ^ 31] and [INT_MAX] by [to_int]. *)
Record state : Type := mk_state {
  file_list : list file_entry;
  file_count : Z;
  out : string;           (* everything written to stdout *)
  err : string;           (* everything written to stderr *)
  mallocs : list bool
}.

Definition initial_state (script : list bool) : state :=
  mk_state [] 0 "" "" script.

Definition cmd : Type := state -> state.
Definition skip : cmd := fun st => st.

Notation "c1 ;; c2" := (fun st : state => c2 (c1 st))
  (at level 61, left associativity, only parsing).

Definition printf (s : string) : cmd := fun st =>
  mk_state (file_list st) (file_count st) (out st ++ s) (err st) (mallocs st).

Definition eprintf (s : string) : cmd := fun st =>
  mk_state (file_list st) (file_count st) (out st) (err st ++ s) (mallocs st).

(** The result of a function during which the process can be killed by a
    signal: it returns in a state, or the process dies in one.  [out] is
    then what had been handed to [printf]: stdout is buffered and a signal
    flushes nothing, so what has reached the descriptor is the part of it
    that earlier flushes have written (every full line on a terminal, every
    full block otherwise). *)
Inductive run : Type :=
| returns (st : state)
| dies (st : state).

Definition proc : Type := state -> run.

Definition and_then (r : run) (p : proc) : run :=
  match r with
  | returns st => p st
  | dies st => dies st
  end.

(** How the process ends: [main] returns [code], or a signal kills it. *)
Inductive ending : Type :=
| exited (code : Z)
| killed.

(** Arguments of one call of [add_file_entry]. *)
Record add_args : Type := mk_add_args {
  a_path : string; a_name : string;
  a_inode : Z; a_size : Z; a_mtime : Z; a_mode : Z
}.

(** The entry that [add_file_entry] fills in: both strings are cut to the
    size of their arrays. *)
Definition new_entry (path name : string) (inode size mtime mode : Z) : file_entry :=
  mk_file_entry (str_take 4095 path) (str_take 255 name)
                (to_u64 inode) (to_u64 size) (to_u64 mtime) (to_u32 mode).

Definition entry_of (a : add_args) : file_entry :=
  new_entry (a_path a) (a_name a) (a_inode a) (a_size a) (a_mtime a) (a_mode a).

Definition add_file_entry (path name : string) (inode size mtime mode : Z) : cmd :=
  fun st =>
    match mallocs st with
    | false :: later =>
        (* if (!entry) return; *)
        mk_state (file_list st) (file_count st) (out st) (err st) later
    | _ =>
        mk_state (new_entry path name inode size mtime mode :: file_list st)
                 (to_int (file_count st + 1)) (out st) (err st) (tl (mallocs st))
    end.

Definition add (a : add_args) : cmd :=
  add_file_entry (a_path a) (a_name a) (a_inode a) (a_size a) (a_mtime a) (a_mode a).

(** A sequence of calls, first call first. *)
Definition add_all (calls : list add_args) : cmd :=
  fun st => fold_left (fun s a => add a s) calls st.

(** The calls of a sequence for which [malloc] returns a block, when
    [script] is what the allocator answers from the first call on. *)
Fixpoint stored (calls : list add_args) (script : list bool) : list add_args :=
  match calls with
  | [] => []
  | a :: later =>
      match script with
      | false :: answers => stored later answers
      | _ => a :: stored later (tl script)
      end
  end.

(** ** A C library to run the model with

    [gmtime] followed by [strftime] with ["%Y-%m-%dT%H:%M:%SZ"], for the
    [time_t] values that [gmtime] converts.  The development does not
    depend on it: it instantiates the C library where a statement is
    evaluated on concrete input. *)
Definition two_digits (z : Z) : string :=
  if z <? 10 then "0" ++ decimal z else decimal z.

Definition gmtime_iso8601 (t : Z) : string :=
  let days := t / 86400 in
  let secs := t mod 86400 in
  let z := days + 719468 in
  let era := z / 146097 in
  let doe := z - era * 146097 in
  let yoe := (doe - doe / 1460 + doe / 36524 - doe / 146096) / 365 in
  let doy := doe - (365 * yoe + yoe / 4 - yoe / 100) in
  let mp := (5 * doy + 2) / 153 in
  let d := doy - (153 * mp + 2) / 5 + 1 in
  let m := if mp <? 10 then mp + 3 else mp - 9 in
  let y := yoe + era * 400 + (if m <=? 2 then 1 else 0) in
  decimal y ++ "-" ++ two_digits m ++ "-" ++ two_digits d ++ "T"
    ++ two_digits (secs / 3600) ++ ":" ++ two_digits (secs mod 3600 / 60) ++ ":"
    ++ two_digits (secs mod 60) ++ "Z".

(** The [time_t] values for which [gmtime] returns NULL with a 64-bit
    [time_t]: those whose year, counted from 1900, does not fit the [int]
    member [tm_year]. *)
Definition gmtime_out_of_range (t : Z) : bool :=
  (t <? -67768040609740800) || (67768036191676799 <? t).

(** ** The environment of a run *)

(** A system call that sets [errno] when it fails. *)
Inductive sys (A : Type) : Type :=
| ok (a : A)
| failed (strerror_errno : string).
Arguments ok {A} a.
Arguments failed {A} strerror_errno.

(** The filesystem as the crawler sees it.

    [struct stat] restricted to the members the program reads. *)
Record stat : Type := mk_stat {
  st_ino : Z; st_size : Z; st_mtime : Z; st_mode : Z
}.

(** What the system calls return for one directory entry: the result of
    [lstat] on the path built for it ([None]: a non-zero return), and the
    result of [opendir] on that path ([None]: NULL), which is the sequence of
    [readdir] results, each a [d_name] with the object it names.  The tree
    is finite: it describes the walks that end. *)
#[local] Unset Elimination Schemes.
Inductive fsobj : Type :=
  Obj (lstat_result : option stat)
      (opendir_result : option (list (string * fsobj))).
#[local] Set Elimination Schemes.

Definition lstat_result (o : fsobj) : option stat :=
  match o with Obj l _ => l end.
Definition opendir_result (o : fsobj) : option (list (string * fsobj)) :=
  match o with Obj _ d => d end.

(** One return of [getopt (argc, argv, "f:h")] other than -1.  For ['?']
    the C library has already written [diagnostic] to stderr. *)
Inductive getopt_result : Type :=
| opt_f (optarg : string)
| opt_h
| opt_other (diagnostic : string).

(** Everything [main] receives from its environment. *)
Record invocation : Type := mk_invocation {
  prog : string;                     (* argv[0] *)
  options : list getopt_result;      (* successive results of getopt *)
  operands : list string;            (* argv[optind], ... *)
  stat_result : sys stat;            (* stat (path, &st) *)
  open_result : sys unit;            (* open (mount_path, O_RDONLY) *)
  ioctl_ok : bool;                   (* ioctl (fd, BTRFS_IOC_FS_INFO, ...) >= 0 *)
  root : fsobj                       (* opendir (path) and all beneath *)
}.

(** ** Sample inputs *)

Definition dot_entries : list (string * fsobj) :=
  [(".", Obj None None); ("..", Obj None None)].

Definition regular_file (ino size : Z) : fsobj :=
  Obj (Some (mk_stat ino size 0 33188)) None.              (* 0100644 *)

Definition directory (ino : Z) (entries : list (string * fsobj)) : fsobj :=
  Obj (Some (mk_stat ino 4096 0 16877)) (Some (dot_entries ++ entries)%list).  (* 040755 *)

Definition locked_directory (ino : Z) : fsobj :=
  Obj (Some (mk_stat ino 4096 0 16832)) None.              (* 040700, opendir fails *)

(** A root that holds [a.txt] (2 bytes) and a directory [d] that holds
    [b.txt] (0 bytes). *)
Definition scenario_root : fsobj :=
  directory 2 [("a.txt", regular_file 12 2);
               ("d", directory 13 [("b.txt", regular_file 14 0)])].

(** The same with a directory [locked] between them that cannot be opened. *)
Definition locked_root : fsobj :=
  directory 2 [("a.txt", regular_file 12 2);
               ("locked", locked_directory 20);
               ("d", directory 13 [("b.txt", regular_file 14 0)])].

Definition empty_root : fsobj := directory 2 [].

Definition directory_stat : sys stat := ok (mk_stat 2 4096 0 16877).
Definition file_stat : sys stat := ok (mk_stat 12 2 0 33188).

(** [indexer /r] on a filesystem that is not btrfs. *)
Definition scenario_run : invocation :=
  mk_invocation "indexer" [] ["/r"] directory_stat (ok tt) false scenario_root.

Definition locked_run : invocation :=
  mk_invocation "indexer" [] ["/r"] directory_stat (ok tt) false locked_root.

Definition empty_run : invocation :=
  mk_invocation "indexer" [opt_f "json"] ["/r"] directory_stat (ok tt) false empty_root.

(** [indexer /r/a.txt]: the path is a regular file. *)
Definition file_run : invocation :=
  mk_invocation "indexer" [opt_f "csv"] ["/r/a.txt"] file_stat (ok tt) false
                (Obj None None).





Definition sample_calls : list add_args :=
  [ mk_add_args "/r/a.txt" "a.txt" 12 2 0 33188;
    mk_add_args "/r/d" "d" 13 4096 0 16877;
    mk_add_args "/r/d/b.txt" "b.txt" 14 0 0 33188 ].

(** A name with a double quote in it, and one with a two-byte UTF-8
    character (e with acute accent, C3 A9). *)
Definition quoted_name : string := "a" ++ chr dquote ++ "b".
Definition accented_name : string :=
  String (ascii_of_nat 195) (String (ascii_of_nat 169) "").

(** An item of 176 bytes, numbered from 0. *)
Definition sample_item : list byte :=
  map (fun n => match Byte.of_nat n with Some b => b | None => Byte.x00 end) (seq 0 176).

(** [indexer -h /r/a.txt]. *)
Definition help_run : invocation :=
  mk_invocation "indexer" [opt_h] ["/r/a.txt"] file_stat (ok tt) false (Obj None None).

(** The first second of the year 2147485548, which is past what the
    [tm_year] member of [struct tm] can hold. *)
Definition unconvertible_mtime : Z := 67768036191676800.

(** A root that holds a file [z.bin] with that modification time, and after
    it [a.txt]. *)
Definition unconvertible_root : fsobj :=
  directory 2 [("z.bin", Obj (Some (mk_stat 15 0 unconvertible_mtime 33188)) None);
               ("a.txt", regular_file 12 2)].

Definition unconvertible_run : invocation :=
  mk_invocation "indexer" [] ["/r"] directory_stat (ok tt) false unconvertible_root.

(** A command line with a help request between two formats. *)
Definition help_in_the_middle_run : invocation :=
  mk_invocation "indexer" [opt_f "csv"; opt_h; opt_f "xml"] ["/r/a.txt"] file_stat
                (ok tt) false (Obj None None).

(** ** Platform and C library

    Some facts are fixed by the compiler and the C library rather than by the
    program text; the development is parametric in them. *)
Section Indexer.

(** Whether plain [char] is a signed type (it is on x86-64 Linux, it is not
    on AArch64 Linux). *)
Variable char_signed : bool.

(** [strftime (buffer, 32, "%Y-%m-%dT%H:%M:%SZ", gmtime (&t))]: the text left
    in [buffer] for a [time_t] value [t] that [gmtime] converts. *)
Variable strftime_gmtime : Z -> string.

(** Whether [gmtime (&t)] returns NULL (the year of [t] does not fit
    [struct tm]). *)
Variable gmtime_null : Z -> bool.

(** [time (NULL)] at the moment [output_json] runs. *)
Variable time_now : Z.

(** The value of [src[i]] after integer promotion. *)
Definition char_value (c : ascii) : Z :=
  let n := Z.of_N (N_of_ascii c) in
  if char_signed && (128 <=? n) then n - 256 else n.

(** [timestamp_to_iso] hands the result of [gmtime] to [strftime] without
    looking at it.  When it is NULL [strftime] reads the members of
    [struct tm] through a null pointer, which ends the process with SIGSEGV:
    that is [None].  Otherwise the text left in [buffer] is returned. *)
Definition timestamp_to_iso (timestamp : Z) : option string :=
  let time := to_time_t timestamp in
  if gmtime_null time then None else Some (strftime_gmtime time).

(** *** json_escape

    [json_escape_loop src dst_size dst_idx] is the text the [for] loop
    stores from index [dst_idx] on while it scans [src]; [dst_size - 2] and
    [dst_size - 3] are computed in [size_t]. *)
Fixpoint json_escape_loop (src : string) (dst_size dst_idx : Z) : string :=
  match src with
  | EmptyString => EmptyString
  | String c rest =>
      if dst_idx <? to_u64 (dst_size - 2) then
        let two (e : ascii) :=
          if dst_idx <? to_u64 (dst_size - 3)
          then String backslash (String e (json_escape_loop rest dst_size (dst_idx + 2)))
          else json_escape_loop rest dst_size dst_idx in
        if (c =? dquote)%char then two dquote
        else if (c =? backslash)%char then two backslash
        else if (c =? newline)%char then two "n"%char
        else if (c =? carriage_return)%char then two "r"%char
        else if (c =? tab)%char then two "t"%char
        else if 32 <=? char_value c
             then String c (json_escape_loop rest dst_size (dst_idx + 1))
             else json_escape_loop rest dst_size dst_idx
      else EmptyString
  end.

Definition json_escape (src : string) (dst_size : Z) : string :=
  json_escape_loop src dst_size 0.

(** *** output_json *)

Definition bool_text (b : bool) : string := if b then "true" else "false".

(** The body of the [while (entry)] loop for one entry: the separator is
    printed, then the three buffers are filled, then the object is printed.
    The process does not outlive a [timestamp_to_iso] that fails. *)
Definition output_json_entry (entry : file_entry) (first : bool) : proc :=
  fun st =>
    let st0 := (if negb first then printf ("," ++ nl) else skip) st in
    let escaped_path := json_escape (fe_path entry) 8192 in
    let escaped_name := json_escape (fe_name entry) 512 in
    match timestamp_to_iso (fe_mtime entry) with
    | None => dies st0
    | Some mtime_str =>
        returns
          ((printf ("    {" ++ nl) ;;
            printf ("      " ++ q ++ "path" ++ q ++ ": " ++ q ++ escaped_path ++ q ++ "," ++ nl) ;;
            printf ("      " ++ q ++ "name" ++ q ++ ": " ++ q ++ escaped_name ++ q ++ "," ++ nl) ;;
            printf ("      " ++ q ++ "inode" ++ q ++ ": " ++ decimal (fe_inode entry) ++ "," ++ nl) ;;
            printf ("      " ++ q ++ "size" ++ q ++ ": " ++ decimal (fe_size entry) ++ "," ++ nl) ;;
            printf ("      " ++ q ++ "mtime" ++ q ++ ": " ++ q ++ mtime_str ++ q ++ "," ++ nl) ;;
            printf ("      " ++ q ++ "mode" ++ q ++ ": " ++ decimal (fe_mode entry) ++ "," ++ nl) ;;
            printf ("      " ++ q ++ "is_dir" ++ q ++ ": "
                      ++ bool_text (S_ISDIR (fe_mode entry)) ++ nl) ;;
            printf "    }") st0)
    end.

Fixpoint output_json_loop (entry : list file_entry) (first : bool) : proc :=
  fun st =>
    match entry with
    | [] => returns st
    | e :: next =>
        and_then (output_json_entry e first st) (output_json_loop next false)
    end.

Definition output_json : proc :=
  fun st =>
    let st0 :=
      (printf ("{" ++ nl) ;;
       printf ("  " ++ q ++ "metadata" ++ q ++ ": {" ++ nl) ;;
       (fun st => printf ("    " ++ q ++ "total_files" ++ q ++ ": "
                            ++ decimal (file_count st) ++ "," ++ nl) st) ;;
       printf ("    " ++ q ++ "scan_time" ++ q ++ ": " ++ q ++ decimal time_now ++ q
                 ++ "," ++ nl) ;;
       printf ("    " ++ q ++ "format" ++ q ++ ": " ++ q ++ "btrfs_metadata" ++ q ++ nl) ;;
       printf ("  }," ++ nl) ;;
       printf ("  " ++ q ++ "files" ++ q ++ ": [" ++ nl)) st in
    and_then (output_json_loop (file_list st0) true st0)
      (fun st1 => returns ((printf (nl ++ "  ]" ++ nl) ;; printf ("}" ++ nl)) st1)).

(** *** output_csv *)

Definition output_csv_entry (entry : file_entry) : proc :=
  fun st =>
    match timestamp_to_iso (fe_mtime entry) with
    | None => dies st
    | Some mtime_str =>
        returns
          (printf (q ++ fe_path entry ++ q ++ "," ++ q ++ fe_name entry ++ q ++ ","
                     ++ decimal (fe_inode entry) ++ "," ++ decimal (fe_size entry) ++ ","
                     ++ q ++ mtime_str ++ q ++ "," ++ decimal (fe_mode entry) ++ ","
                     ++ bool_text (S_ISDIR (fe_mode entry)) ++ nl) st)
    end.

Fixpoint output_csv_loop (entry : list file_entry) : proc :=
  fun st =>
    match entry with
    | [] => returns st
    | e :: next => and_then (output_csv_entry e st) (output_csv_loop next)
    end.

Definition output_csv : proc :=
  fun st =>
    let st0 := printf ("path,name,inode,size,mtime,mode,is_dir" ++ nl) st in
    output_csv_loop (file_list st0) st0.

(** *** The byte decoder

    Reads of the item buffer run in a small monad that records every offset
    touched and faults ([None]) on an offset outside the buffer. *)
Definition Read (A : Type) : Type := list byte -> list Z * option A.

Definition ret {A : Type} (a : A) : Read A := fun _ => ([], Some a).

Definition bind {A B : Type} (m : Read A) (f : A -> Read B) : Read B :=
  fun buf =>
    match m buf with
    | (t1, Some a) => let (t2, r) := f a buf in ((t1 ++ t2)%list, r)
    | (t1, None) => (t1, None)
    end.

Notation "x <- m ; f" := (bind m (fun x => f))
  (at level 62, m at next level, right associativity, only parsing).

(** [p[i]] for a [const uint8_t *p] that points to the start of the buffer. *)
Definition load (i : Z) : Read Z := fun buf =>
  ([i], if (0 <=? i) && (i <? Z.of_nat (List.length buf))
        then option_map (fun b => Z.of_N (Byte.to_N b)) (nth_error buf (Z.to_nat i))
        else None).

(** [get_le64 (p + off)] and [get_le32 (p + off)]. *)
Definition get_le64 (off : Z) : Read Z :=
  p7 <- load (off + 7) ; p6 <- load (off + 6) ;
  p5 <- load (off + 5) ; p4 <- load (off + 4) ;
  p3 <- load (off + 3) ; p2 <- load (off + 2) ;
  p1 <- load (off + 1) ; p0 <- load off ;
  ret (Z.lor (Z.lor (Z.lor (Z.lor (Z.lor (Z.lor (Z.lor
        (to_u64 (Z.shiftl p7 56)) (to_u64 (Z.shiftl p6 48)))
        (to_u64 (Z.shiftl p5 40))) (to_u64 (Z.shiftl p4 32)))
        (to_u64 (Z.shiftl p3 24))) (to_u64 (Z.shiftl p2 16)))
        (to_u64 (Z.shiftl p1 8))) p0).

Definition get_le32 (off : Z) : Read Z :=
  p3 <- load (off + 3) ; p2 <- load (off + 2) ;
  p1 <- load (off + 1) ; p0 <- load off ;
  ret (Z.lor (Z.lor (Z.lor
        (to_u32 (Z.shiftl p3 24)) (to_u32 (Z.shiftl p2 16)))
        (to_u32 (Z.shiftl p1 8))) p0).

(** [sizeof] of the unnamed [struct { uint64_t sec; uint32_t nsec; }]: 12
    when the compiler packs it like the enclosing structure, 16 when it gives
    it its natural layout. *)
Variable timespec_size : Z.

(** [struct simple_inode_item], declared [packed]: members in order, each
    with its size, no padding between them. *)
Definition simple_inode_item : list (string * Z) :=
  [ ("generation", 8); ("transid", 8); ("size", 8); ("nbytes", 8);
    ("block_group", 8); ("nlink", 4); ("uid", 4); ("gid", 4); ("mode", 4);
    ("rdev", 8); ("flags", 8); ("sequence", 8); ("reserved", 32);
    ("atime", timespec_size); ("ctime", timespec_size);
    ("mtime", timespec_size); ("otime", timespec_size) ].

Fixpoint sizeof (layout : list (string * Z)) : Z :=
  match layout with
  | [] => 0
  | (_, n) :: rest => n + sizeof rest
  end.

Fixpoint offsetof (layout : list (string * Z)) (member : string) : Z :=
  match layout with
  | [] => 0
  | (m, n) :: rest => if String.eqb m member then 0 else n + offsetof rest member
  end.

(** [strrchr (s, c)]: the part of [s] that starts at the last [c]. *)
Fixpoint strrchr (s : string) (c : ascii) : option string :=
  match s with
  | EmptyString => None
  | String d rest =>
      match strrchr rest c with
      | Some t => Some t
      | None => if (d =? c)%char then Some s else None
      end
  end.

(** The result is the offsets read and the state on return ([None] when a
    read left the buffer). *)
Definition process_inode_item (objectid : Z) (item_data : list byte)
    (item_len : Z) (path : string) (st : state) : list Z * option state :=
  if item_len <? sizeof simple_inode_item then ([], Some st)
  else
    (size <- get_le64 (offsetof simple_inode_item "size") ;
     mtime <- get_le64 (offsetof simple_inode_item "mtime") ;   (* mtime.sec *)
     mode <- get_le32 (offsetof simple_inode_item "mode") ;
     let name := match strrchr path "/" with
                 | Some (String _ after) => after
                 | _ => path
                 end in
     ret (add_file_entry path name objectid size mtime mode st)) item_data.

 (** [strcmp (d_name, ".") == 0 || strcmp (d_name, "..") == 0] *)
Definition is_dot (d_name : string) : bool :=
  String.eqb d_name "." || String.eqb d_name "..".

(** The progress report that follows [add_file_entry] in the crawler. *)
Definition report_progress : cmd := fun st =>
  if Z.rem (file_count st) 1000 =? 0
  then eprintf (cr ++ "Processed " ++ decimal (file_count st) ++ " files...") st
  else st.

(** The [while ((entry = readdir (dir)) != NULL)] loop of [crawl_filesystem],
    with the recursive call as a parameter. *)
Definition readdir_loop (crawl : string -> fsobj -> state -> Z * state)
    (path : string) : list (string * fsobj) -> state -> state :=
  fix loop (entries : list (string * fsobj)) (st : state) {struct entries} : state :=
    match entries with
    | [] => st
    | (d_name, child) :: rest =>
        if is_dot d_name then loop rest st
        else
          let full_path := str_take 4095 (path ++ "/" ++ d_name) in
          match child with
          | Obj (Some s) _ =>
              let st1 := add_file_entry full_path d_name (st_ino s) (st_size s)
                                        (st_mtime s) (st_mode s) st in
              let st2 := report_progress st1 in
              let st3 := if S_ISDIR (st_mode s)
                         then snd (crawl full_path child st2)   (* result ignored *)
                         else st2 in
              loop rest st3
          | Obj None _ => loop rest st
          end
    end.

(** [crawl_filesystem (path)] where [opendir (path)] returns what [o] holds. *)
Fixpoint crawl_filesystem (path : string) (o : fsobj) (st : state) {struct o}
    : Z * state :=
  match o with
  | Obj _ None => (-1, st)
  | Obj _ (Some entries) =>
      (0, readdir_loop crawl_filesystem path entries
            (eprintf ("Crawling filesystem from " ++ path ++ "..." ++ nl) st))
  end.

(** *** search_btrfs_metadata *)


Definition search_btrfs_metadata (mount_path : string) (open_result : sys unit)
    (ioctl_ok : bool) (root : fsobj) (st : state) : Z * state :=
  match open_result with
  | failed e =>
      (-1, eprintf ("Error: Cannot open " ++ mount_path ++ ": " ++ e ++ nl) st)
  | ok _ =>
      if negb ioctl_ok then
        (-1, eprintf ("Error: " ++ mount_path
                        ++ " is not a btrfs filesystem or lacks permissions" ++ nl) st)
      else
        crawl_filesystem mount_path root
          (eprintf ("Warning: Direct metadata access failed, "
                      ++ "falling back to filesystem crawl..." ++ nl) st)
  end.

(** *** main *)

Definition print_usage (prog : string) : cmd :=
  printf ("Usage: " ++ prog ++ " [OPTIONS] <path>" ++ nl) ;;
  printf ("Options:" ++ nl) ;;
  printf ("  -f FORMAT   Output format: json (default) or csv" ++ nl) ;;
  printf ("  -h          Show this help" ++ nl) ;;
  printf nl ;;
  printf ("Example: " ++ prog ++ " /home > files.json" ++ nl) ;;
  printf ("         " ++ prog ++ " -f csv /home > files.csv" ++ nl).


(** The option loop: [inl] when [main] returns from inside it, [inr] with the
    selected format when [getopt] returns -1. *)
Fixpoint getopt_loop (prog : string) (opts : list getopt_result) (format : string)
    (st : state) : (ending * state) + (string * state) :=
  match opts with
  | [] => inr (format, st)
  | opt_f optarg :: later =>
      if negb (String.eqb optarg "json") && negb (String.eqb optarg "csv")
      then inl (exited 1, eprintf ("Error: Invalid format '" ++ optarg
                                     ++ "'. Use 'json' or 'csv'." ++ nl) st)
      else getopt_loop prog later optarg st
  | opt_h :: _ => inl (exited 0, print_usage prog st)
  | opt_other diagnostic :: _ => inl (exited 1, print_usage prog (eprintf diagnostic st))
  end.

(** The cleanup loop frees every entry; [file_count] is left as it is. *)
Definition free_file_list : cmd := fun st =>
  mk_state [] (file_count st) (out st) (err st) (mallocs st).

(** The exit code, or the signal, with the state the process ends in. *)
Definition main (i : invocation) (st : state) : ending * state :=
  match getopt_loop (prog i) (options i) "json" st with
  | inl returned => returned
  | inr (format, st) =>
      match operands i with
      | [] => (exited 1, print_usage (prog i) (eprintf ("Error: Missing path." ++ nl) st))
      | path :: _ =>
          match stat_result i with
          | failed e =>
              (exited 1, eprintf ("Error: Cannot access " ++ path ++ ": " ++ e ++ nl) st)
          | ok s =>
              if negb (S_ISDIR (st_mode s)) then
                (exited 1, eprintf ("Error: " ++ path ++ " is not a directory." ++ nl) st)
              else
                let (r1, st1) :=
                  search_btrfs_metadata path (open_result i) (ioctl_ok i) (root i) st in
                let (r2, st2) :=
                  if negb (r1 =? 0) then crawl_filesystem path (root i) st1
                  else (0, st1) in
                if negb (r2 =? 0) then
                  (exited 1, eprintf ("Error: Failed to process filesystem." ++ nl) st2)
                else
                  let st3 := eprintf (cr ++ "Completed! Found "
                                        ++ decimal (file_count st2) ++ " files." ++ nl) st2 in
                  match (if String.eqb format "csv"
                         then output_csv st3 else output_json st3) with
                  | returns st4 => (exited 0, free_file_list st4)
                  | dies st4 => (killed, st4)
                  end
          end
      end
  end.

(** ** What the emitters print, record by record

    The texts below are not new definitions of the emitters: the shape lemmas
    that follow show that [output_json] and [output_csv], as transcribed
    above, print exactly these. *)

(** [gmtime] converts the modification time of [e]. *)
Definition convertible (e : file_entry) : bool :=
  negb (gmtime_null (to_time_t (fe_mtime e))).

(** [gmtime] converts the modification time of every entry of the list. *)
Definition printable (l : list file_entry) : bool := forallb convertible l.

(** The entries in front of the first one that [gmtime] does not convert. *)
Fixpoint convertible_prefix (l : list file_entry) : list file_entry :=
  match l with
  | [] => []
  | e :: rest => if convertible e then e :: convertible_prefix rest else []
  end.

(** The seven field values of the object printed for a convertible [e]. *)
Definition json_fields (e : file_entry) : list string :=
  [ json_escape (fe_path e) 8192; json_escape (fe_name e) 512;
    decimal (fe_inode e); decimal (fe_size e);
    strftime_gmtime (to_time_t (fe_mtime e));
    decimal (fe_mode e); bool_text (S_ISDIR (fe_mode e)) ].

(** The seven field values of the row printed for a convertible [e]. *)
Definition csv_fields (e : file_entry) : list string :=
  [ fe_path e; fe_name e;
    decimal (fe_inode e); decimal (fe_size e);
    strftime_gmtime (to_time_t (fe_mtime e));
    decimal (fe_mode e); bool_text (S_ISDIR (fe_mode e)) ].

(** JSON framing of seven field values. *)
Definition json_frame (f : list string) : string :=
  "    {" ++ nl
  ++ "      " ++ q ++ "path" ++ q ++ ": " ++ q ++ nth 0 f "" ++ q ++ "," ++ nl
  ++ "      " ++ q ++ "name" ++ q ++ ": " ++ q ++ nth 1 f "" ++ q ++ "," ++ nl
  ++ "      " ++ q ++ "inode" ++ q ++ ": " ++ nth 2 f "" ++ "," ++ nl
  ++ "      " ++ q ++ "size" ++ q ++ ": " ++ nth 3 f "" ++ "," ++ nl
  ++ "      " ++ q ++ "mtime" ++ q ++ ": " ++ q ++ nth 4 f "" ++ q ++ "," ++ nl
  ++ "      " ++ q ++ "mode" ++ q ++ ": " ++ nth 5 f "" ++ "," ++ nl
  ++ "      " ++ q ++ "is_dir" ++ q ++ ": " ++ nth 6 f "" ++ nl
  ++ "    }".

(** CSV framing of seven field values. *)
Definition csv_frame (f : list string) : string :=
  q ++ nth 0 f "" ++ q ++ "," ++ q ++ nth 1 f "" ++ q ++ ","
  ++ nth 2 f "" ++ "," ++ nth 3 f "" ++ ","
  ++ q ++ nth 4 f "" ++ q ++ "," ++ nth 5 f "" ++ "," ++ nth 6 f "" ++ nl.

Definition json_object (e : file_entry) : string := json_frame (json_fields e).
Definition csv_row (e : file_entry) : string := csv_frame (csv_fields e).

(** A whole JSON document: [total] in the metadata, then the objects. *)
Definition json_document (total : Z) (objects : list string) : string :=
  "{" ++ nl
  ++ "  " ++ q ++ "metadata" ++ q ++ ": {" ++ nl
  ++ "    " ++ q ++ "total_files" ++ q ++ ": " ++ decimal total ++ "," ++ nl
  ++ "    " ++ q ++ "scan_time" ++ q ++ ": " ++ q ++ decimal time_now ++ q ++ "," ++ nl
  ++ "    " ++ q ++ "format" ++ q ++ ": " ++ q ++ "btrfs_metadata" ++ q ++ nl
  ++ "  }," ++ nl
  ++ "  " ++ q ++ "files" ++ q ++ ": [" ++ nl
  ++ String.concat ("," ++ nl) objects
  ++ nl ++ "  ]" ++ nl
  ++ "}" ++ nl.

(** The part of a JSON document that has been printed when the process
    dies in the loop of [output_json]: the metadata, the objects printed so
    far and, unless there is none, the separator that follows them. *)
Definition json_cut_short (total : Z) (objects : list string) : string :=
  "{" ++ nl
  ++ "  " ++ q ++ "metadata" ++ q ++ ": {" ++ nl
  ++ "    " ++ q ++ "total_files" ++ q ++ ": " ++ decimal total ++ "," ++ nl
  ++ "    " ++ q ++ "scan_time" ++ q ++ ": " ++ q ++ decimal time_now ++ q ++ "," ++ nl
  ++ "    " ++ q ++ "format" ++ q ++ ": " ++ q ++ "btrfs_metadata" ++ q ++ nl
  ++ "  }," ++ nl
  ++ "  " ++ q ++ "files" ++ q ++ ": [" ++ nl
  ++ String.concat ("," ++ nl) objects
  ++ match objects with [] => "" | _ :: _ => "," ++ nl end.

(** A whole CSV document: the header row, then the rows.  A document that
    is cut short is of the same form, with fewer rows. *)
Definition csv_document (rows : list string) : string :=
  "path,name,inode,size,mtime,mode,is_dir" ++ nl ++ String.concat "" rows.

(** Every [malloc] still to come returns a block. *)
Definition mallocs_succeed (st : state) : Prop :=
  Forall (fun b => b = true) (mallocs st).

(** The counter agrees with the list, as far as an [int] can. *)
Definition count_matches (st : state) : Prop :=
  file_count st = to_int (Z.of_nat (List.length (file_list st))).

(** ** The tree beneath a directory

    What the crawler can see beneath a directory, parent before children, in
    [readdir] order: each object with the path built for it (cut to the size
    of [full_path]), its name and its [lstat] result.  The pseudo-entries [.]
    and [..] are skipped, an entry that [lstat] fails on is not seen, and
    nothing is seen beneath a directory that [opendir] fails on. *)
Definition beneath_entries (beneath : string -> fsobj -> list add_args)
    (path : string) : list (string * fsobj) -> list add_args :=
  fix each (entries : list (string * fsobj)) : list add_args :=
    match entries with
    | [] => []
    | (d_name, child) :: rest =>
        if is_dot d_name then each rest
        else
          let full_path := str_take 4095 (path ++ "/" ++ d_name) in
          match child with
          | Obj (Some s) _ =>
              (mk_add_args full_path d_name (st_ino s) (st_size s) (st_mtime s) (st_mode s)
                 :: (if S_ISDIR (st_mode s) then beneath full_path child else [])
                 ++ each rest)%list
          | Obj None _ => each rest
          end
    end.

Fixpoint beneath (path : string) (o : fsobj) {struct o} : list add_args :=
  match o with
  | Obj _ (Some entries) => beneath_entries beneath path entries
  | Obj _ None => []
  end.

Definition is_directory (a : add_args) : bool := S_ISDIR (a_mode a).

(** The objects of the tree strictly beneath a directory, each under its own
    path: the path of its parent, a slash and its name, of whatever length.
    The pseudo-entries [.] and [..] are not objects of the tree, and only a
    directory has objects beneath it. *)
Definition tree_entries (tree_objects : string -> fsobj -> list add_args)
    (path : string) : list (string * fsobj) -> list add_args :=
  fix each (entries : list (string * fsobj)) : list add_args :=
    match entries with
    | [] => []
    | (d_name, child) :: rest =>
        if is_dot d_name then each rest
        else
          let own_path := path ++ "/" ++ d_name in
          match child with
          | Obj (Some s) _ =>
              (mk_add_args own_path d_name (st_ino s) (st_size s) (st_mtime s) (st_mode s)
                 :: (if S_ISDIR (st_mode s) then tree_objects own_path child else [])
                 ++ each rest)%list
          | Obj None _ => each rest
          end
    end.

Fixpoint tree_objects (path : string) (o : fsobj) {struct o} : list add_args :=
  match o with
  | Obj _ (Some entries) => tree_entries tree_objects path entries
  | Obj _ None => []
  end.

(** M and N: the directories and the other objects of the tree beneath
    [o]. *)
Definition directories_beneath (path : string) (o : fsobj) : nat :=
  List.length (filter is_directory (tree_objects path o)).
Definition non_directories_beneath (path : string) (o : fsobj) : nat :=
  List.length (filter (fun a => negb (is_directory a)) (tree_objects path o)).

(** The number of directory entries in the tree beneath [o], the
    pseudo-entries apart, whether or not [lstat] succeeds on them. *)
Definition count_entries (entries_beneath : fsobj -> nat)
    : list (string * fsobj) -> nat :=
  fix each (entries : list (string * fsobj)) : nat :=
    match entries with
    | [] => O
    | (d_name, child) :: rest =>
        if is_dot d_name then each rest
        else
          (1 + match child with
               | Obj (Some s) _ => if S_ISDIR (st_mode s) then entries_beneath child else 0
               | Obj None _ => 0
               end
           + each rest)%nat
    end.

Fixpoint entries_beneath (o : fsobj) {struct o} : nat :=
  match o with
  | Obj _ (Some entries) => count_entries entries_beneath entries
  | Obj _ None => O
  end.

(** The path of every object of the tree fits [full_path], terminator
    included: [snprintf] cuts none of them, so every [lstat] and [opendir]
    is made on the path of the object itself. *)
Definition paths_fit (path : string) (o : fsobj) : bool :=
  forallb (fun a => (String.length (a_path a) <=? 4095)%nat) (tree_objects path o).

(** Every entry can be examined with [lstat] and every directory can be
    opened, from [o] downwards. *)
Definition walkable_entries (walkable : fsobj -> bool)
    : list (string * fsobj) -> bool :=
  fix each (entries : list (string * fsobj)) : bool :=
    match entries with
    | [] => true
    | (d_name, child) :: rest =>
        if is_dot d_name then each rest
        else
          match child with
          | Obj (Some s) _ =>
              (if S_ISDIR (st_mode s) then walkable child else true) && each rest
          | Obj None _ => false
          end
    end.

Fixpoint walkable (o : fsobj) {struct o} : bool :=
  match o with
  | Obj _ (Some entries) => walkable_entries walkable entries
  | Obj _ None => false
  end.

(** Two states that differ at most in what was written to stderr. *)
Definition same_but_err (s1 s2 : state) : Prop :=
  file_list s1 = file_list s2 /\ file_count s1 = file_count s2
  /\ out s1 = out s2 /\ mallocs s1 = mallocs s2.

(** ** The phases of [main]

    [main] is one function in the source; the lemma [main_phases] shows that
    it is the composition of the pieces named here. *)

(** [-f] with an argument that [main] accepts. *)
Definition accepted_format (o : getopt_result) : bool :=
  match o with
  | opt_f optarg => String.eqb optarg "json" || String.eqb optarg "csv"
  | _ => false
  end.


(** The value of [format] after the option loop. *)
Definition selected_format (opts : list getopt_result) (format : string) : string :=
  fold_left (fun f o => match o with opt_f optarg => optarg | _ => f end) opts format.

(** The line [search_btrfs_metadata] writes to stderr before it returns or
    crawls. *)
Definition probe_report (i : invocation) (path : string) : string :=
  match open_result i with
  | failed e => "Error: Cannot open " ++ path ++ ": " ++ e ++ nl
  | ok _ =>
      if negb (ioctl_ok i)
      then "Error: " ++ path ++ " is not a btrfs filesystem or lacks permissions" ++ nl
      else "Warning: Direct metadata access failed, "
             ++ "falling back to filesystem crawl..." ++ nl
  end.

Definition probe_fails (i : invocation) : bool :=
  match open_result i with
  | failed _ => true
  | ok _ => negb (ioctl_ok i)
  end.

(** The probe followed by the fallback, as the [if]s of [main] nest them. *)
Definition gather (i : invocation) (path : string) (st : state) : Z * state :=
  let (r1, st1) :=
    search_btrfs_metadata path (open_result i) (ioctl_ok i) (root i) st in
  if negb (r1 =? 0) then crawl_filesystem path (root i) st1 else (0, st1).

Definition emit (format : string) : proc :=
  if String.eqb format "csv" then output_csv else output_json.

(** What [main] does with the result of the gathering phase. *)
Definition finish (format : string) (gathered : Z * state) : ending * state :=
  let (r2, st2) := gathered in
  if negb (r2 =? 0) then
    (exited 1, eprintf ("Error: Failed to process filesystem." ++ nl) st2)
  else
    match emit format
            (eprintf (cr ++ "Completed! Found "
                        ++ decimal (file_count st2) ++ " files." ++ nl) st2) with
    | returns st4 => (exited 0, free_file_list st4)
    | dies st4 => (killed, st4)
    end.

(** The same invocation with another outcome of the probe. *)
Definition with_probe (o : sys unit) (k : bool) (i : invocation) : invocation :=
  mk_invocation (prog i) (options i) (operands i) (stat_result i) o k (root i).

(** ** The escaping rule as the specification words it

    Five bytes have a two-character escape, every other byte below 32 is
    dropped, every other byte is copied.  A byte is its value between 0 and
    255. *)
Definition byte_value (c : ascii) : Z := Z.of_N (N_of_ascii c).

Definition documented_escape_byte (c : ascii) : string :=
  if (c =? dquote)%char then String backslash (chr dquote)
  else if (c =? backslash)%char then String backslash (chr backslash)
  else if (c =? newline)%char then String backslash "n"
  else if (c =? carriage_return)%char then String backslash "r"
  else if (c =? tab)%char then String backslash "t"
  else if byte_value c <? 32 then ""
  else chr c.

Fixpoint documented_escape (s : string) : string :=
  match s with
  | EmptyString => EmptyString
  | String c rest => documented_escape_byte c ++ documented_escape rest
  end.

(** No byte of [s] has its high bit set. *)
Fixpoint seven_bit (s : string) : bool :=
  match s with
  | EmptyString => true
  | String c rest => (byte_value c <? 128) && seven_bit rest
  end.

(** ** The rest of the program

    Definitions for the parts of the source that the statements so far did
    not need, and for the properties proved of them. *)

(** [simple_path_name (inode, path, path_size)]: [snprintf] stores nothing
    when [path_size] is 0, and otherwise at most [path_size - 1] characters
    of the formatted text. *)
Definition simple_path_name (inode : Z) (path : string) (path_size : Z) : string :=
  if path_size =? 0 then path
  else str_take (Z.to_nat (path_size - 1)) ("/inode_" ++ decimal inode).

(** The expression [process_inode_item] computes its name with:
    [name = strrchr (path, '/'); name = name ? name + 1 : path]. *)
Definition name_of_path (path : string) : string :=
  match strrchr path "/" with
  | Some (String _ after) => after
  | _ => path
  end.

(** The [n] low-order bytes of [v], least significant first: the on-disk
    form of an integer that [get_le64] and [get_le32] read back. *)
Definition byte_of_Z (z : Z) : byte :=
  match Byte.of_N (Z.to_N (z mod 256)) with
  | Some b => b
  | None => Byte.x00
  end.

Fixpoint le_bytes (n : nat) (v : Z) : list byte :=
  match n with
  | O => []
  | S n' => byte_of_Z v :: le_bytes n' (v / 256)
  end.

(** The [n] bytes of [buf] that start at offset [off]. *)
Definition bytes_at (off : Z) (n : nat) (buf : list byte) : list byte :=
  firstn n (skipn (Z.to_nat off) buf).

(** What the [switch] of [json_escape] stores for one byte when there is
    room for it. *)
Definition json_escape_byte (c : ascii) : string :=
  if (c =? dquote)%char then String backslash (chr dquote)
  else if (c =? backslash)%char then String backslash (chr backslash)
  else if (c =? newline)%char then String backslash "n"
  else if (c =? carriage_return)%char then String backslash "r"
  else if (c =? tab)%char then String backslash "t"
  else if 32 <=? char_value c then chr c
  else "".

Fixpoint json_escape_bytes (s : string) : string :=
  match s with
  | EmptyString => EmptyString
  | String c rest => json_escape_byte c ++ json_escape_bytes rest
  end.

(** No byte of [s] is one that the [default] case drops. *)
Fixpoint all_bytes_kept (s : string) : bool :=
  match s with
  | EmptyString => true
  | String c rest =>
      ((c =? dquote)%char || (c =? backslash)%char || (c =? newline)%char
       || (c =? carriage_return)%char || (c =? tab)%char || (32 <=? char_value c))
      && all_bytes_kept rest
  end.

(** The body of a JSON string: no control character, no bare double quote,
    and every backslash followed by one of the five letters the escaper
    uses. *)
Definition escape_letter (e : ascii) : bool :=
  (e =? dquote)%char || (e =? backslash)%char || (e =? "n")%char
  || (e =? "r")%char || (e =? "t")%char.

Fixpoint well_escaped (s : string) : bool :=
  match s with
  | EmptyString => true
  | String c rest =>
      if (c =? backslash)%char then
        match rest with
        | String e rest' => escape_letter e && well_escaped rest'
        | EmptyString => false
        end
      else negb (c =? dquote)%char && (32 <=? byte_value c) && well_escaped rest
  end.

(** Reading an escaped string back. *)
Definition unescape_letter (e : ascii) : ascii :=
  if (e =? "n")%char then newline
  else if (e =? "r")%char then carriage_return
  else if (e =? "t")%char then tab
  else e.

Fixpoint json_unescape (s : string) : string :=
  match s with
  | EmptyString => EmptyString
  | String c rest =>
      if (c =? backslash)%char then
        match rest with
        | String e rest' => String (unescape_letter e) (json_unescape rest')
        | EmptyString => EmptyString
        end
      else String c (json_unescape rest)
  end.

(** An entry whose strings fit the arrays of [struct file_entry] and the
    buffers of [output_json], and whose numbers fit their types. *)
Definition entry_fits (e : file_entry) : Prop :=
  (String.length (fe_path e) <= 4095)%nat
  /\ (String.length (fe_name e) <= 255)%nat
  /\ 0 <= fe_inode e < UINT64_MOD
  /\ 0 <= fe_size e < UINT64_MOD
  /\ 0 <= fe_mtime e < UINT64_MOD
  /\ 0 <= fe_mode e < UINT32_MOD.

(** The text of [print_usage]. *)
Definition usage (prog : string) : string :=
  "Usage: " ++ prog ++ " [OPTIONS] <path>" ++ nl
  ++ "Options:" ++ nl
  ++ "  -f FORMAT   Output format: json (default) or csv" ++ nl
  ++ "  -h          Show this help" ++ nl
  ++ nl
  ++ "Example: " ++ prog ++ " /home > files.json" ++ nl
  ++ "         " ++ prog ++ " -f csv /home > files.csv" ++ nl.

(** The document that [emit] prints for a store all of whose entries are
    convertible. *)
Definition document (format : string) (st : state) : string :=
  if String.eqb format "csv"
  then csv_document (map csv_row (file_list st))
  else json_document (file_count st) (map json_object (file_list st)).

(** What [emit] has printed for a store when the process dies at the first
    entry that is not convertible. *)
Definition cut_document (format : string) (st : state) : string :=
  let printed := convertible_prefix (file_list st) in
  if String.eqb format "csv"
  then csv_document (map csv_row printed)
  else json_cut_short (file_count st) (map json_object printed).

(** The integer that a sequence of bytes spells, least significant byte
    first. *)
Fixpoint le_value (bs : list byte) : Z :=
  match bs with
  | [] => 0
  | b :: rest => Z.of_N (Byte.to_N b) + 256 * le_value rest
  end.

(** An item of 176 bytes that holds size 4096, mode 0100644 and
    modification time 1700000000 where a layout with 16-byte timestamps has
    these members, and zeros elsewhere. *)
Definition encoded_item : list byte :=
  (repeat Byte.x00 16 ++ le_bytes 8 4096 ++ repeat Byte.x00 28
   ++ le_bytes 4 33188 ++ repeat Byte.x00 88
   ++ le_bytes 8 1700000000 ++ repeat Byte.x00 24)%list.

(** ** Lemmas on text *)

Lemma append_assoc (a b c : string) : (a ++ b) ++ c = a ++ (b ++ c).
Proof. induction a as [|x a IH]; simpl; [reflexivity | now rewrite IH]. Qed.

Lemma append_nil_r (a : string) : a ++ "" = a.
Proof. induction a as [|x a IH]; simpl; [reflexivity | now rewrite IH]. Qed.

Lemma length_append (a b : string) :
  String.length (a ++ b) = (String.length a + String.length b)%nat.
Proof. induction a as [|x a IH]; simpl; [reflexivity | now rewrite IH]. Qed.

Lemma append_inv_head (a b c : string) : a ++ b = a ++ c -> b = c.
Proof.
  induction a as [|x a IH]; simpl; intros H; [exact H|].
  injection H as H. now apply IH.
Qed.

Lemma concat_cons (sep x : string) (l : list string) :
  String.concat sep (x :: l)
  = x ++ fold_right (fun y acc => sep ++ y ++ acc) "" l.
Proof.
  revert x. induction l as [|y l IH]; intros x; simpl.
  - now rewrite append_nil_r.
  - f_equal. f_equal. apply IH.
Qed.

Lemma length_str_take (n : nat) (s : string) : (String.length (str_take n s) <= n)%nat.
Proof.
  revert s. induction n as [|n IH]; intros [|c s]; simpl; try lia.
  specialize (IH s). lia.
Qed.

Lemma str_take_all (n : nat) (s : string) :
  (String.length s <= n)%nat -> str_take n s = s.
Proof.
  revert s. induction n as [|n IH]; intros [|c s] H; cbn in *; try reflexivity; try lia.
  f_equal. apply IH. lia.
Qed.

(** ** The record store *)

(** Cutting a mode to 32 bits keeps its type bits: the [is_dir] printed for a
    record is the test the crawler made on [st_mode]. *)
Lemma S_ISDIR_to_u32 (m : Z) : S_ISDIR (to_u32 m) = S_ISDIR m.
Proof.
  unfold S_ISDIR, to_u32, UINT32_MOD. f_equal.
  apply Z.bits_inj'. intros n Hn. rewrite !Z.land_spec.
  destruct (Z.ltb_spec n 32) as [Hlt|Hge].
  - now rewrite Z.mod_pow2_bits_low by lia.
  - replace (Z.testbit S_IFMT n) with false; [now rewrite !andb_false_r|].
    symmetry. apply Z.bits_above_log2; [unfold S_IFMT; lia|].
    unfold S_IFMT. change (Z.log2 61440) with 15. lia.
Qed.

Lemma printf_frame (s : string) (st : state) :
  file_list (printf s st) = file_list st /\ file_count (printf s st) = file_count st
  /\ err (printf s st) = err st /\ mallocs (printf s st) = mallocs st
  /\ out (printf s st) = out st ++ s.
Proof. repeat split. Qed.

(** *** The counter *)

Lemma to_int_small (z : Z) : - 2 ^ 31 <= z <= INT_MAX -> to_int z = z.
Proof.
  unfold to_int, INT_MAX, UINT32_MOD. intros H.
  rewrite Z.mod_small by lia. lia.
Qed.

Lemma to_int_add (a b : Z) : to_int (to_int a + b) = to_int (a + b).
Proof.
  unfold to_int, UINT32_MOD. f_equal.
  replace ((a + 2 ^ 31) mod 2 ^ 32 - 2 ^ 31 + b + 2 ^ 31)
    with ((a + 2 ^ 31) mod 2 ^ 32 + b) by lia.
  rewrite Zplus_mod_idemp_l. f_equal. lia.
Qed.

Lemma to_int_range (z : Z) : - 2 ^ 31 <= to_int z <= INT_MAX.
Proof.
  unfold to_int, INT_MAX, UINT32_MOD.
  pose proof (Z.mod_pos_bound (z + 2 ^ 31) (2 ^ 32) ltac:(lia)). lia.
Qed.

(** *** Insertions *)

Lemma add_succeeds (a : add_args) (st : state) :
  mallocs_succeed st ->
  add a st = mk_state (entry_of a :: file_list st) (to_int (file_count st + 1))
                      (out st) (err st) (tl (mallocs st))
  /\ mallocs_succeed (add a st).
Proof.
  unfold mallocs_succeed, add, add_file_entry, entry_of. intros H.
  destruct (mallocs st) as [|b later] eqn:E; simpl.
  - split; [reflexivity | constructor].
  - inversion H as [|? ? Hb Hl]; subst. simpl. split; [reflexivity | exact Hl].
Qed.

Lemma add_fails (path name : string) (inode size mtime mode : Z)
    (l : list file_entry) (c : Z) (o e : string) (later : list bool) :
  add_file_entry path name inode size mtime mode (mk_state l c o e (false :: later))
  = mk_state l c o e later.
Proof. reflexivity. Qed.

Lemma add_file_entry_streams (path name : string) (inode size mtime mode : Z)
    (st : state) :
  out (add_file_entry path name inode size mtime mode st) = out st
  /\ err (add_file_entry path name inode size mtime mode st) = err st.
Proof. unfold add_file_entry. destruct (mallocs st) as [|[|] ?]; split; reflexivity. Qed.

Lemma add_file_entry_count_matches (path name : string) (inode size mtime mode : Z)
    (st : state) :
  count_matches st -> count_matches (add_file_entry path name inode size mtime mode st).
Proof.
  unfold count_matches, add_file_entry. intros H.
  destruct (mallocs st) as [|[|] ?]; cbn [file_count file_list List.length];
    try exact H; rewrite H, to_int_add; f_equal; lia.
Qed.

Lemma add_all_out (calls : list add_args) (st : state) :
  out (add_all calls st) = out st.
Proof.
  revert st. induction calls as [|a calls IH]; intros st; [reflexivity|].
  change (add_all (a :: calls) st) with (add_all calls (add a st)).
  rewrite IH. apply add_file_entry_streams.
Qed.

Lemma add_all_app (xs ys : list add_args) (st : state) :
  add_all (xs ++ ys) st = add_all ys (add_all xs st).
Proof. unfold add_all. apply fold_left_app. Qed.

Lemma add_all_count_matches (calls : list add_args) (st : state) :
  count_matches st -> count_matches (add_all calls st).
Proof.
  revert st. induction calls as [|a calls IH]; intros st H; [exact H|].
  apply IH. now apply add_file_entry_count_matches.
Qed.

(** While every allocation succeeds the calls put their entries in front of
    the list, last call first, and the counter moves up by one per call
    until it reaches [INT_MAX]. *)
Lemma add_all_succeeds (calls : list add_args) (st : state) :
  mallocs_succeed st ->
  file_list (add_all calls st) = (rev (map entry_of calls) ++ file_list st)%list
  /\ (0 <= file_count st ->
      file_count st + Z.of_nat (List.length calls) <= INT_MAX ->
      file_count (add_all calls st) = file_count st + Z.of_nat (List.length calls))
  /\ out (add_all calls st) = out st
  /\ mallocs_succeed (add_all calls st).
Proof.
  revert st. induction calls as [|a calls IH]; intros st H.
  - simpl. repeat split; [lia | exact H].
  - destruct (add_succeeds a st H) as [E H'].
    destruct (IH (add a st) H') as (Hl & Hc & Ho & Hm).
    change (add_all (a :: calls) st) with (add_all calls (add a st)).
    rewrite Hl, Ho, E. cbn [file_list file_count out map rev List.length].
    split; [now rewrite <- app_assoc|]. split; [|split; [reflexivity|]].
    + intros H0 Hmax. rewrite Nat2Z.inj_succ in Hmax.
      rewrite E in Hc. cbn [file_count] in Hc.
      assert (to_int (file_count st + 1) = file_count st + 1) as T
        by (apply to_int_small; unfold INT_MAX in *; lia).
      rewrite T in *. rewrite Hc by lia. lia.
    + rewrite <- E. exact Hm.
Qed.

(** Whatever the allocator answers, the calls that got a block put their
    entries in front of the list, last call first; the counter moves with
    them and both streams stay as they are. *)
Lemma add_all_stores (calls : list add_args) :
  forall st : state,
    file_list (add_all calls st)
    = (rev (map entry_of (stored calls (mallocs st))) ++ file_list st)%list
    /\ to_int (file_count (add_all calls st))
       = to_int (file_count st + Z.of_nat (List.length (stored calls (mallocs st))))
    /\ out (add_all calls st) = out st
    /\ err (add_all calls st) = err st.
Proof.
  induction calls as [|a calls IH]; intros st.
  - cbn. rewrite Z.add_0_r. repeat split.
  - change (add_all (a :: calls) st) with (add_all calls (add a st)).
    destruct (IH (add a st)) as (L & C & O & E). rewrite L, C, O, E.
    unfold add, add_file_entry. cbn [stored].
    destruct (mallocs st) as [|[|] answers];
      cbn [file_list file_count out err mallocs tl map rev List.length];
      rewrite <- ?app_assoc, ?to_int_add, ?Nat2Z.inj_succ;
      repeat split; f_equal; lia.
Qed.

Lemma stored_all (calls : list add_args) :
  forall script : list bool,
    Forall (fun b => b = true) script -> stored calls script = calls.
Proof.
  induction calls as [|a calls IH]; intros script H; [reflexivity|].
  cbn [stored]. destruct H as [|b answers Hb H]; cbn [tl].
  - f_equal. apply IH. constructor.
  - subst b. f_equal. now apply IH.
Qed.

Lemma stored_length (calls : list add_args) :
  forall script : list bool,
    (List.length (stored calls script) <= List.length calls)%nat.
Proof.
  induction calls as [|a calls IH]; intros script; [apply Nat.le_refl|].
  cbn [stored]. destruct script as [|[|] answers]; cbn [List.length tl].
  - specialize (IH []). lia.
  - specialize (IH answers). lia.
  - specialize (IH answers). lia.
Qed.

(** The counter holds the number of entries as long as the list has at most
    [INT_MAX] of them; with one more it is negative. *)
Lemma file_count_fits_int (st : state) :
  count_matches st -> Z.of_nat (List.length (file_list st)) <= INT_MAX ->
  file_count st = Z.of_nat (List.length (file_list st)).
Proof.
  unfold count_matches. intros -> H. apply to_int_small. unfold INT_MAX in *. lia.
Qed.

Lemma file_count_overflows (st : state) :
  count_matches st -> Z.of_nat (List.length (file_list st)) = INT_MAX + 1 ->
  file_count st = - 2 ^ 31.
Proof. unfold count_matches. intros -> ->. reflexivity. Qed.

(** ** Shape of the two documents *)

Lemma printf_nil (st : state) : printf "" st = st.
Proof. destruct st. unfold printf. simpl. now rewrite append_nil_r. Qed.

Lemma printf_printf (a b : string) (st : state) :
  printf b (printf a st) = printf (a ++ b) st.
Proof. unfold printf. simpl. now rewrite append_assoc. Qed.

Lemma file_list_printf (t : string) (st : state) :
  file_list (printf t st) = file_list st.
Proof. reflexivity. Qed.

Lemma file_count_printf (t : string) (st : state) :
  file_count (printf t st) = file_count st.
Proof. reflexivity. Qed.

Lemma convertible_timestamp (e : file_entry) :
  timestamp_to_iso (fe_mtime e)
  = if convertible e then Some (strftime_gmtime (to_time_t (fe_mtime e))) else None.
Proof.
  unfold timestamp_to_iso, convertible.
  now destruct (gmtime_null (to_time_t (fe_mtime e))).
Qed.

Lemma convertible_prefix_printable (l : list file_entry) :
  printable l = true -> convertible_prefix l = l.
Proof.
  induction l as [|e l IH]; [reflexivity|]. cbn [printable forallb convertible_prefix].
  intros H. apply andb_prop in H. destruct H as [-> H]. f_equal. now apply IH.
Qed.

Lemma convertible_prefix_app (l1 l2 : list file_entry) (e : file_entry) :
  printable l1 = true -> convertible e = false ->
  printable (l1 ++ e :: l2) = false /\ convertible_prefix (l1 ++ e :: l2) = l1.
Proof.
  intros H1 He. induction l1 as [|x l1 IH]; cbn [app printable forallb convertible_prefix].
  - rewrite He. split; reflexivity.
  - cbn [printable forallb] in H1. apply andb_prop in H1. destruct H1 as [Hx H1].
    rewrite Hx. destruct (IH H1) as [P C]. cbn [andb]. split; [exact P | now rewrite C].
Qed.

Lemma output_json_entry_prints (e : file_entry) (first : bool) (st : state) :
  output_json_entry e first st
  = if convertible e
    then returns (printf ((if first then "" else "," ++ nl) ++ json_object e) st)
    else dies (printf (if first then "" else "," ++ nl) st).
Proof.
  unfold output_json_entry. rewrite convertible_timestamp.
  destruct (convertible e).
  - unfold json_object, json_frame, json_fields, skip. cbn [nth].
    destruct first; cbn [negb]; rewrite !printf_printf; do 2 f_equal;
      rewrite !append_assoc; reflexivity.
  - destruct first; cbn [negb]; unfold skip; [now rewrite printf_nil | reflexivity].
Qed.

Lemma output_json_loop_prints (l : list file_entry) (st : state) :
  let joined (objects : list string) :=
    fold_right (fun y acc => ("," ++ nl) ++ y ++ acc) "" objects in
  output_json_loop l false st
  = if printable l
    then returns (printf (joined (map json_object l)) st)
    else dies (printf (joined (map json_object (convertible_prefix l)) ++ "," ++ nl) st).
Proof.
  intros joined. revert st. induction l as [|e l IH]; intros st.
  - cbn. now rewrite printf_nil.
  - cbn [output_json_loop printable forallb convertible_prefix].
    rewrite output_json_entry_prints.
    destruct (convertible e); cbn [and_then andb map]; [|reflexivity].
    rewrite IH. fold (printable l).
    destruct (printable l); rewrite printf_printf; do 2 f_equal;
      unfold joined; cbn [fold_right]; now rewrite !append_assoc.
Qed.

Lemma output_json_loop_first (l : list file_entry) (st : state) :
  output_json_loop l true st
  = if printable l
    then returns (printf (String.concat ("," ++ nl) (map json_object l)) st)
    else dies (printf (String.concat ("," ++ nl) (map json_object (convertible_prefix l))
                         ++ match map json_object (convertible_prefix l) with
                            | [] => ""
                            | _ :: _ => "," ++ nl
                            end) st).
Proof.
  destruct l as [|e l].
  - cbn. now rewrite printf_nil.
  - cbn [output_json_loop printable forallb convertible_prefix].
    rewrite output_json_entry_prints.
    destruct (convertible e); cbn [and_then andb map];
      [|cbn; now rewrite printf_nil].
    rewrite output_json_loop_prints. fold (printable l). rewrite !concat_cons.
    destruct (printable l); rewrite printf_printf; do 2 f_equal;
      now rewrite ?append_assoc.
Qed.

(** [output_json] prints one document whose [total_files] is [file_count]
    and whose objects are those of [file_list], head first; or it prints
    such a document as far as the first entry that [gmtime] does not convert,
    and the process dies. *)
Lemma output_json_prints (st : state) :
  output_json st
  = if printable (file_list st)
    then returns (printf (json_document (file_count st)
                            (map json_object (file_list st))) st)
    else dies (printf (json_cut_short (file_count st)
                         (map json_object (convertible_prefix (file_list st)))) st).
Proof.
  unfold output_json. cbv zeta.
  rewrite output_json_loop_first, !file_list_printf, !file_count_printf.
  destruct (printable (file_list st)); cbn [and_then];
    rewrite !printf_printf; do 2 f_equal;
    unfold json_document, json_cut_short; rewrite !append_assoc; reflexivity.
Qed.

Lemma output_csv_entry_prints (e : file_entry) (st : state) :
  output_csv_entry e st
  = if convertible e then returns (printf (csv_row e) st) else dies st.
Proof.
  unfold output_csv_entry. rewrite convertible_timestamp.
  destruct (convertible e); [|reflexivity].
  unfold csv_row, csv_frame, csv_fields. cbn [nth]. reflexivity.
Qed.

Lemma output_csv_loop_prints (l : list file_entry) (st : state) :
  output_csv_loop l st
  = (if printable l then returns else dies)
      (printf (String.concat "" (map csv_row (convertible_prefix l))) st).
Proof.
  revert st. induction l as [|e l IH]; intros st.
  - cbn. now rewrite printf_nil.
  - cbn [output_csv_loop printable forallb convertible_prefix].
    rewrite output_csv_entry_prints.
    destruct (convertible e); cbn [and_then andb map];
      [|cbn; now rewrite printf_nil].
    rewrite IH. fold (printable l). rewrite concat_cons, printf_printf.
    assert (fold_right (fun y acc => "" ++ y ++ acc) ""
              (map csv_row (convertible_prefix l))
            = String.concat "" (map csv_row (convertible_prefix l))) as ->.
    { destruct (map csv_row (convertible_prefix l)) as [|r rows]; [reflexivity|].
      now rewrite concat_cons. }
    reflexivity.
Qed.

(** [output_csv] prints the header and one row per entry of [file_list],
    head first; the process dies at the first entry that [gmtime] does not
    convert, after the rows of the entries in front of it. *)
Lemma output_csv_prints (st : state) :
  output_csv st
  = (if printable (file_list st) then returns else dies)
      (printf (csv_document (map csv_row (convertible_prefix (file_list st)))) st).
Proof.
  unfold output_csv. cbv zeta.
  rewrite output_csv_loop_prints, file_list_printf.
  destruct (printable (file_list st)); now rewrite printf_printf.
Qed.

(** ** The crawler *)

Lemma fsobj_ind (P : fsobj -> Prop) :
  (forall l, P (Obj l None)) ->
  (forall l entries, Forall (fun e => P (snd e)) entries -> P (Obj l (Some entries))) ->
  forall o, P o.
Proof.
  intros Hnone Hsome. fix IH 1. intros [l [entries|]]; [|apply Hnone].
  apply Hsome. induction entries as [|[d_name child] rest IHrest]; constructor.
  - apply IH.
  - exact IHrest.
Qed.

Lemma crawl_filesystem_result (path : string) (o : fsobj) (st : state) :
  fst (crawl_filesystem path o st)
  = match opendir_result o with Some _ => 0 | None => -1 end.
Proof. destruct o as [l [entries|]]; reflexivity. Qed.

Lemma readdir_loop_app (crawl : string -> fsobj -> state -> Z * state)
    (path : string) (l1 l2 : list (string * fsobj)) (st : state) :
  readdir_loop crawl path (l1 ++ l2) st
  = readdir_loop crawl path l2 (readdir_loop crawl path l1 st).
Proof.
  revert st. induction l1 as [|[d_name [[s|] d]] l1 IH]; intros st;
    [reflexivity | |]; cbn [readdir_loop app];
    destruct (is_dot d_name); apply IH.
Qed.

(** The records made for a list of objects are directories, or not, as the
    objects are. *)
Lemma records_by_kind (objects : list add_args) :
  List.length (filter (fun e => S_ISDIR (fe_mode e)) (map entry_of objects))
  = List.length (filter is_directory objects)
  /\ List.length (filter (fun e => negb (S_ISDIR (fe_mode e))) (map entry_of objects))
     = List.length (filter (fun a => negb (is_directory a)) objects).
Proof.
  induction objects as [|a objects [IHd IHn]]; [split; reflexivity|].
  assert (S_ISDIR (fe_mode (entry_of a)) = is_directory a) as E
    by apply S_ISDIR_to_u32.
  cbn [map filter]. rewrite E.
  destruct (is_directory a); cbn [negb List.length]; split; congruence.
Qed.

(** *** States that differ on stderr only *)

Lemma same_but_err_refl (st : state) : same_but_err st st.
Proof. repeat split. Qed.

Lemma same_but_err_eprintf (a b : string) (s1 s2 : state) :
  same_but_err s1 s2 -> same_but_err (eprintf a s1) (eprintf b s2).
Proof. intros (L & C & O & M). repeat split; assumption. Qed.

Lemma same_but_err_add_file_entry (path name : string) (inode size mtime mode : Z)
    (s1 s2 : state) :
  same_but_err s1 s2 ->
  same_but_err (add_file_entry path name inode size mtime mode s1)
               (add_file_entry path name inode size mtime mode s2).
Proof.
  intros (L & C & O & M). unfold add_file_entry. rewrite M.
  destruct (mallocs s2) as [|[|] later]; repeat split; cbn; congruence.
Qed.

Lemma same_but_err_sym (s1 s2 : state) : same_but_err s1 s2 -> same_but_err s2 s1.
Proof. intros (L & C & O & M). repeat split; congruence. Qed.

Lemma same_but_err_trans (s1 s2 s3 : state) :
  same_but_err s1 s2 -> same_but_err s2 s3 -> same_but_err s1 s3.
Proof. intros (L & C & O & M) (L' & C' & O' & M'). repeat split; congruence. Qed.

Lemma same_but_err_report_progress_l (s1 s2 : state) :
  same_but_err s1 s2 -> same_but_err (report_progress s1) s2.
Proof.
  intros H. unfold report_progress.
  destruct (Z.rem (file_count s1) 1000 =? 0); [|exact H].
  destruct H as (L & C & O & M). repeat split; assumption.
Qed.

Lemma same_but_err_eprintf_l (s : string) (s1 s2 : state) :
  same_but_err s1 s2 -> same_but_err (eprintf s s1) s2.
Proof. intros (L & C & O & M). repeat split; assumption. Qed.

Create HintDb store discriminated.
#[local] Hint Resolve same_but_err_refl same_but_err_eprintf same_but_err_eprintf_l
  same_but_err_report_progress_l same_but_err_add_file_entry : store.

Lemma add_all_same_but_err (calls : list add_args) :
  forall s1 s2 : state,
    same_but_err s1 s2 -> same_but_err (add_all calls s1) (add_all calls s2).
Proof.
  induction calls as [|a calls IH]; intros s1 s2 H; [exact H|].
  apply IH. now apply same_but_err_add_file_entry.
Qed.

(** Whatever fails on the way, a walk leaves the store as the calls of
    [add_file_entry] for the objects it can see leave it. *)
Lemma crawl_same_as_add_all (o : fsobj) :
  forall (path : string) (s1 s2 : state),
    same_but_err s1 s2 ->
    same_but_err (snd (crawl_filesystem path o s1)) (add_all (beneath path o) s2).
Proof.
  induction o as [l|l entries IH] using fsobj_ind; intros path s1 s2 H; [exact H|].
  cbn [crawl_filesystem snd beneath].
  pose proof (same_but_err_eprintf_l
                ("Crawling filesystem from " ++ path ++ "..." ++ nl) _ _ H) as H0.
  revert H0.
  generalize (eprintf ("Crawling filesystem from " ++ path ++ "..." ++ nl) s1).
  clear H s1. revert s2.
  induction entries as [|[d_name [[s|] d]] rest IHrest]; intros s2 s1 H;
    [exact H | |];
    inversion IH as [|? ? IHchild IHrest']; subst;
    cbn [readdir_loop beneath_entries]; destruct (is_dot d_name);
    try (now apply IHrest).
  change (add_all (?a :: ?x ++ ?r) s2) with (add_all (x ++ r) (add a s2)).
  rewrite add_all_app. apply IHrest; [exact IHrest'|].
  assert (same_but_err
            (report_progress
               (add_file_entry (str_take 4095 (path ++ "/" ++ d_name)) d_name
                  (st_ino s) (st_size s) (st_mtime s) (st_mode s) s1))
            (add (mk_add_args (str_take 4095 (path ++ "/" ++ d_name)) d_name
                    (st_ino s) (st_size s) (st_mtime s) (st_mode s)) s2)) as H1
    by (apply same_but_err_report_progress_l, same_but_err_add_file_entry; auto with store).
  destruct (S_ISDIR (st_mode s)); [now apply IHchild | exact H1].
Qed.

Lemma add_all_length (calls : list add_args) :
  forall st : state,
    (List.length (file_list (add_all calls st))
     <= List.length (file_list st) + List.length calls)%nat.
Proof.
  induction calls as [|a calls IH]; intros st; [simpl; lia|].
  change (add_all (a :: calls) st) with (add_all calls (add a st)).
  specialize (IH (add a st)). cbn [List.length].
  assert (List.length (file_list (add a st)) <= S (List.length (file_list st)))%nat.
  { unfold add, add_file_entry. destruct (mallocs st) as [|[|] ?]; simpl; lia. }
  lia.
Qed.

(** *** The objects of the tree and what the crawler sees of them *)

(** While no path is cut, the crawler builds for every object the path of
    that object. *)
Lemma beneath_tree_objects (o : fsobj) :
  forall path : string,
    paths_fit path o = true -> beneath path o = tree_objects path o.
Proof.
  unfold paths_fit.
  induction o as [l|l entries IH] using fsobj_ind; intros path; [reflexivity|].
  cbn [beneath tree_objects].
  induction entries as [|[d_name [[s|] d]] rest IHrest]; intros F; [reflexivity | |];
    inversion IH as [|? ? IHchild IHrest']; subst;
    cbn [beneath_entries tree_entries] in *; destruct (is_dot d_name);
    try (now apply IHrest).
  cbn [forallb a_path] in F. apply andb_prop in F. destruct F as [Fp F].
  rewrite forallb_app in F. apply andb_prop in F. destruct F as [Fc Fr].
  rewrite str_take_all by (apply Nat.leb_le; exact Fp).
  f_equal. f_equal; [|now apply IHrest].
  destruct (S_ISDIR (st_mode s)); [now apply IHchild | reflexivity].
Qed.

(** In a tree where every [lstat] and every [opendir] succeeds, every
    directory entry is an object of the tree. *)
Lemma walkable_tree_objects (o : fsobj) :
  forall path : string,
    walkable o = true -> List.length (tree_objects path o) = entries_beneath o.
Proof.
  induction o as [l|l entries IH] using fsobj_ind; intros path; [reflexivity|].
  cbn [walkable tree_objects entries_beneath].
  induction entries as [|[d_name [[s|] d]] rest IHrest]; intros W; [reflexivity | |];
    inversion IH as [|? ? IHchild IHrest']; subst;
    cbn [walkable_entries tree_entries count_entries] in *; destruct (is_dot d_name);
    try (now apply IHrest); try discriminate W.
  apply andb_prop in W. destruct W as [Wc Wr].
  cbn [List.length snd] in *. rewrite length_app, (IHrest IHrest' Wr).
  destruct (S_ISDIR (st_mode s));
    [rewrite (IHchild _ Wc) | cbn [List.length]]; lia.
Qed.

(** The objects around a directory that cannot be opened: what comes before
    it with all that is beneath, the directory itself, and what comes after
    it with all that is beneath. *)
Lemma beneath_entries_app (path : string) (l1 l2 : list (string * fsobj)) :
  beneath_entries beneath path (l1 ++ l2)
  = (beneath_entries beneath path l1 ++ beneath_entries beneath path l2)%list.
Proof.
  induction l1 as [|[d_name [[s|] d]] l1 IH]; [reflexivity | |];
    cbn [app beneath_entries]; destruct (is_dot d_name); try exact IH.
  rewrite IH. cbn [app]. now rewrite app_assoc.
Qed.

Lemma beneath_unopened (path : string) (l : option stat)
    (before after : list (string * fsobj)) (d_name : string) (s : stat) :
  is_dot d_name = false ->
  beneath path (Obj l (Some (before ++ (d_name, Obj (Some s) None) :: after)%list))
  = (beneath path (Obj l (Some before))
     ++ mk_add_args (str_take 4095 (path ++ "/" ++ d_name)) d_name
                    (st_ino s) (st_size s) (st_mtime s) (st_mode s)
     :: beneath path (Obj l (Some after)))%list.
Proof.
  intros Hdot. cbn [beneath]. rewrite beneath_entries_app. f_equal.
  cbn [beneath_entries]. rewrite Hdot. cbn [beneath].
  now destruct (S_ISDIR (st_mode s)).
Qed.

(** What a walk gathers does not depend on what stderr holds. *)
Lemma crawl_same_but_err (path : string) (o : fsobj) (s1 s2 : state) :
  same_but_err s1 s2 ->
  same_but_err (snd (crawl_filesystem path o s1)) (snd (crawl_filesystem path o s2)).
Proof.
  intros H.
  apply same_but_err_trans with (add_all (beneath path o) s2).
  - now apply crawl_same_as_add_all.
  - apply same_but_err_sym, crawl_same_as_add_all, same_but_err_refl.
Qed.

(** The store after a walk: in front of what was there, one entry per
    visible object that got a block, the last one seen first. *)
Lemma crawl_stores (path : string) (o : fsobj) (st : state) :
  let st' := snd (crawl_filesystem path o st) in
  file_list st'
  = (rev (map entry_of (stored (beneath path o) (mallocs st))) ++ file_list st)%list
  /\ to_int (file_count st')
     = to_int (file_count st
               + Z.of_nat (List.length (stored (beneath path o) (mallocs st))))
  /\ out st' = out st.
Proof.
  intros st'.
  destruct (crawl_same_as_add_all o path st st (same_but_err_refl st))
    as (L & C & O & _).
  destruct (add_all_stores (beneath path o) st) as (L' & C' & O' & _).
  fold st' in L, C, O. rewrite L, C, O. repeat split; assumption.
Qed.

Lemma crawl_count_matches (path : string) (o : fsobj) (st : state) :
  count_matches st -> count_matches (snd (crawl_filesystem path o st)).
Proof.
  intros H.
  destruct (crawl_same_as_add_all o path st st (same_but_err_refl st))
    as (L & C & _).
  unfold count_matches. rewrite L, C. now apply add_all_count_matches.
Qed.

(** ** json_escape *)

Lemma char_value_unsigned (c : ascii) :
  char_signed = false \/ byte_value c < 128 -> char_value c = byte_value c.
Proof.
  unfold char_value, byte_value. intros [-> | H]; [reflexivity|].
  destruct (128 <=? Z.of_N (N_of_ascii c)) eqn:E.
  - apply Z.leb_le in E. lia.
  - now rewrite andb_false_r.
Qed.

Lemma to_u64_small (z : Z) : 0 <= z < UINT64_MOD -> to_u64 z = z.
Proof. intros H. unfold to_u64. now apply Z.mod_small. Qed.

(** With room for two characters per source byte and the terminator, and
    with [src[i] >= 32] comparing byte values, the loop follows the
    documented rule. *)
Lemma json_escape_loop_documented (src : string) :
  forall dst_size dst_idx : Z,
    char_signed = false \/ seven_bit src = true ->
    0 <= dst_idx ->
    dst_idx + 2 * Z.of_nat (String.length src) + 2 <= dst_size < UINT64_MOD ->
    json_escape_loop src dst_size dst_idx = documented_escape src.
Proof.
  induction src as [|c rest IH]; intros dst_size dst_idx Hc H0 Hs; [reflexivity|].
  cbn [String.length] in Hs. rewrite Nat2Z.inj_succ in Hs.
  assert (Hrest : char_signed = false \/ seven_bit rest = true).
  { destruct Hc as [Hc|Hc]; [now left | right].
    cbn [seven_bit] in Hc. now apply andb_prop in Hc. }
  assert (Hv : char_value c = byte_value c).
  { apply char_value_unsigned. destruct Hc as [Hc|Hc]; [now left | right].
    cbn [seven_bit] in Hc. apply andb_prop in Hc. now apply Z.ltb_lt. }
  cbn [json_escape_loop documented_escape].
  rewrite !to_u64_small by lia.
  replace (dst_idx <? dst_size - 2) with true by (symmetry; apply Z.ltb_lt; lia).
  replace (dst_idx <? dst_size - 3) with true by (symmetry; apply Z.ltb_lt; lia).
  unfold documented_escape_byte. rewrite Hv.
  repeat match goal with
         | |- context [ (c =? ?d)%char ] =>
             destruct (c =? d)%char;
             [cbn [append chr]; do 2 f_equal; apply IH; [exact Hrest | lia | lia]|]
         end.
  rewrite Z.leb_antisym.
  destruct (byte_value c <? 32); cbn [negb append chr].
  - apply IH; [exact Hrest | lia | lia].
  - f_equal. apply IH; [exact Hrest | lia | lia].
Qed.

(** ** The byte decoder *)

Lemma load_in_range (i : Z) (buf : list byte) :
  0 <= i < Z.of_nat (List.length buf) ->
  exists v, load i buf = ([i], Some v).
Proof.
  intros H. unfold load.
  replace ((0 <=? i) && (i <? Z.of_nat (List.length buf))) with true
    by (symmetry; apply andb_true_intro; split; [apply Z.leb_le | apply Z.ltb_lt]; lia).
  destruct (nth_error buf (Z.to_nat i)) as [b|] eqn:E.
  - eexists. reflexivity.
  - apply nth_error_None in E. lia.
Qed.

Lemma get_le64_in_range (off : Z) (buf : list byte) :
  0 <= off -> off + 7 < Z.of_nat (List.length buf) ->
  exists v,
    get_le64 off buf
    = ([off + 7; off + 6; off + 5; off + 4; off + 3; off + 2; off + 1; off], Some v).
Proof.
  intros H0 H7.
  destruct (load_in_range (off + 7) buf) as [v7 E7]; [lia|].
  destruct (load_in_range (off + 6) buf) as [v6 E6]; [lia|].
  destruct (load_in_range (off + 5) buf) as [v5 E5]; [lia|].
  destruct (load_in_range (off + 4) buf) as [v4 E4]; [lia|].
  destruct (load_in_range (off + 3) buf) as [v3 E3]; [lia|].
  destruct (load_in_range (off + 2) buf) as [v2 E2]; [lia|].
  destruct (load_in_range (off + 1) buf) as [v1 E1]; [lia|].
  destruct (load_in_range off buf) as [v0 E0]; [lia|].
  unfold get_le64, bind, ret. rewrite E7, E6, E5, E4, E3, E2, E1, E0.
  eexists. reflexivity.
Qed.

Lemma get_le32_in_range (off : Z) (buf : list byte) :
  0 <= off -> off + 3 < Z.of_nat (List.length buf) ->
  exists v, get_le32 off buf = ([off + 3; off + 2; off + 1; off], Some v).
Proof.
  intros H0 H3.
  destruct (load_in_range (off + 3) buf) as [v3 E3]; [lia|].
  destruct (load_in_range (off + 2) buf) as [v2 E2]; [lia|].
  destruct (load_in_range (off + 1) buf) as [v1 E1]; [lia|].
  destruct (load_in_range off buf) as [v0 E0]; [lia|].
  unfold get_le32, bind, ret. rewrite E3, E2, E1, E0.
  eexists. reflexivity.
Qed.

Lemma simple_inode_item_layout :
  sizeof simple_inode_item = 112 + 4 * timespec_size
  /\ offsetof simple_inode_item "size" = 16
  /\ offsetof simple_inode_item "mode" = 52
  /\ offsetof simple_inode_item "mtime" = 112 + 2 * timespec_size.
Proof. unfold simple_inode_item. repeat split; cbn -[Z.add Z.mul]; lia. Qed.

(** ** main *)

Lemma main_phases (i : invocation) (st : state) :
  main i st
  = match getopt_loop (prog i) (options i) "json" st with
    | inl returned => returned
    | inr (format, st') =>
        match operands i with
        | [] =>
            (exited 1,
             print_usage (prog i) (eprintf ("Error: Missing path." ++ nl) st'))
        | path :: _ =>
            match stat_result i with
            | failed e =>
                (exited 1,
                 eprintf ("Error: Cannot access " ++ path ++ ": " ++ e ++ nl) st')
            | ok s =>
                if negb (S_ISDIR (st_mode s))
                then (exited 1,
                      eprintf ("Error: " ++ path ++ " is not a directory." ++ nl) st')
                else finish format (gather i path st')
            end
        end
    end.
Proof.
  unfold main, finish, gather, emit.
  destruct (getopt_loop (prog i) (options i) "json" st) as [r|[format st']];
    [reflexivity|].
  destruct (operands i) as [|path rest]; [reflexivity|].
  destruct (stat_result i) as [s|e]; [|reflexivity].
  destruct (negb (S_ISDIR (st_mode s))); [reflexivity|].
  destruct (search_btrfs_metadata path (open_result i) (ioctl_ok i) (root i) st')
    as [r1 st1].
  destruct (negb (r1 =? 0));
    [destruct (crawl_filesystem path (root i) st1) as [r2 st2]|];
    destruct (String.eqb format "csv"); reflexivity.
Qed.

Lemma crawl_unopened (path : string) (o : fsobj) (st : state) :
  opendir_result o = None -> crawl_filesystem path o st = (-1, st).
Proof. destruct o as [l [entries|]]; [discriminate | reflexivity]. Qed.

Lemma crawl_opened (path : string) (o : fsobj) (st : state) :
  opendir_result o <> None ->
  crawl_filesystem path o st = (0, snd (crawl_filesystem path o st)).
Proof. destruct o as [l [entries|]]; [reflexivity | intros H; now destruct H]. Qed.

(** Whatever the probe finds, the records are gathered by one walk of
    [crawl_filesystem], started after the probe has written its line. *)
Lemma gather_crawls (i : invocation) (path : string) (st : state) :
  gather i path st
  = crawl_filesystem path (root i) (eprintf (probe_report i path) st).
Proof.
  unfold gather, search_btrfs_metadata, probe_report.
  destruct (open_result i) as [u|e]; [|reflexivity].
  destruct (negb (ioctl_ok i)); [reflexivity|].
  destruct (root i) as [l [entries|]]; reflexivity.
Qed.

(** Reduces the fields of [with_probe]. *)
Ltac invocation_fields :=
  cbn [with_probe prog options operands stat_result open_result ioctl_ok root].

(** Walks [main] down to its gathering phase; the goals of the earlier
    returns are closed by [tac]. *)
Ltac to_gather i st tac :=
  rewrite !main_phases; invocation_fields;
  destruct (getopt_loop (prog i) (options i) "json" st) as [?|[?format ?st]];
    [tac|];
  destruct (operands i) as [|?path ?rest]; [tac|];
  destruct (stat_result i) as [?s|?e]; [|tac];
  destruct (negb (S_ISDIR (st_mode _))); [tac|];
  rewrite !gather_crawls; invocation_fields.

Lemma getopt_loop_accepted (p : string) (opts : list getopt_result) :
  forall (format : string) (st : state),
    forallb accepted_format opts = true ->
    getopt_loop p opts format st = inr (selected_format opts format, st).
Proof.
  induction opts as [|[optarg| |d] opts IH]; intros format st H;
    cbn [forallb accepted_format] in H; try discriminate H; [reflexivity|].
  apply andb_prop in H. destruct H as [Ha Hr].
  cbn [getopt_loop selected_format fold_left].
  apply orb_prop in Ha. destruct Ha as [-> | ->];
    rewrite ?orb_true_r; cbn [negb andb]; rewrite ?andb_false_r; now apply IH.
Qed.


Lemma print_usage_prints (p : string) (st : state) :
  print_usage p st = printf (usage p) st.
Proof.
  unfold print_usage, usage. rewrite !printf_printf. f_equal.
  rewrite !append_assoc. reflexivity.
Qed.

(** How the option loop ends. *)
Lemma getopt_loop_cases (p : string) (opts : list getopt_result) :
  forall (format : string) (st : state),
    match getopt_loop p opts format st with
    | inl (ending, st') =>
        (ending = exited 1 /\ exists msg : string, st' = eprintf msg st)
        \/ (ending = exited 0 /\ st' = printf (usage p) st)
        \/ (ending = exited 1
            /\ exists d : string, st' = printf (usage p) (eprintf d st))
    | inr (format', st') =>
        st' = st /\ forallb accepted_format opts = true
        /\ format' = selected_format opts format
    end.
Proof.
  induction opts as [|[optarg| |d] opts IH]; intros format st; cbn [getopt_loop].
  - repeat split.
  - cbn [forallb accepted_format selected_format fold_left].
    destruct (String.eqb optarg "json" || String.eqb optarg "csv") eqn:E.
    + apply orb_prop in E.
      assert (negb (String.eqb optarg "json") && negb (String.eqb optarg "csv") = false)
        as -> by (destruct E as [-> | ->]; cbn; now rewrite ?andb_false_r).
      apply IH.
    + apply orb_false_elim in E. destruct E as [-> ->]. cbn [negb andb].
      left. split; [reflexivity|]. eexists. reflexivity.
  - right. left. split; [reflexivity | apply print_usage_prints].
  - right. right. split; [reflexivity|]. exists d. apply print_usage_prints.
Qed.

Lemma getopt_loop_app (p : string) (pre rest : list getopt_result) :
  forall (format : string) (st : state),
    forallb accepted_format pre = true ->
    getopt_loop p (pre ++ rest)%list format st
    = getopt_loop p rest (selected_format pre format) st.
Proof.
  induction pre as [|[optarg| |d] pre IH]; intros format st H;
    cbn [forallb accepted_format] in H; try discriminate H; [reflexivity|].
  apply andb_prop in H. destruct H as [Ha Hr].
  cbn [app getopt_loop selected_format fold_left].
  apply orb_prop in Ha.
  assert (negb (String.eqb optarg "json") && negb (String.eqb optarg "csv") = false)
    as -> by (destruct Ha as [-> | ->]; cbn; now rewrite ?andb_false_r).
  now apply IH.
Qed.

(** The first option that is not an accepted [-f] ends the run. *)
Lemma main_decisive_option
    (i : invocation) (st : state) (pre post : list getopt_result) (o : getopt_result) :
  options i = (pre ++ o :: post)%list ->
  forallb accepted_format pre = true ->
  accepted_format o = false ->
  main i st
  = match o with
    | opt_h => (exited 0, printf (usage (prog i)) st)
    | opt_other diagnostic =>
        (exited 1, printf (usage (prog i)) (eprintf diagnostic st))
    | opt_f optarg =>
        (exited 1, eprintf ("Error: Invalid format '" ++ optarg
                              ++ "'. Use 'json' or 'csv'." ++ nl) st)
    end.
Proof.
  intros Ho Hpre Hacc. rewrite main_phases, Ho, getopt_loop_app by exact Hpre.
  destruct o as [optarg| |d]; cbn [getopt_loop].
  - cbn [accepted_format] in Hacc. apply orb_false_elim in Hacc.
    destruct Hacc as [-> ->]. reflexivity.
  - now rewrite print_usage_prints.
  - now rewrite print_usage_prints.
Qed.

(** [emit] prints the document of the store, or the process dies after the
    part of it that comes before the first entry that [gmtime] does not
    convert. *)
Lemma emit_prints (format : string) (st : state) :
  emit format st
  = if printable (file_list st)
    then returns (printf (document format st) st)
    else dies (printf (cut_document format st) st).
Proof.
  unfold emit, document, cut_document. destruct (String.eqb format "csv").
  - rewrite output_csv_prints.
    destruct (printable (file_list st)) eqn:P; [|reflexivity].
    now rewrite convertible_prefix_printable.
  - apply output_json_prints.
Qed.

Lemma document_same_but_err (format : string) (s1 s2 : state) :
  same_but_err s1 s2 ->
  document format s1 = document format s2
  /\ cut_document format s1 = cut_document format s2.
Proof. intros (L & C & _). unfold document, cut_document. now rewrite L, C. Qed.

Lemma finish_prints (format : string) (st : state) :
  finish format (0, st)
  = if printable (file_list st)
    then (exited 0,
          free_file_list
            (printf (document format st)
               (eprintf (cr ++ "Completed! Found " ++ decimal (file_count st)
                           ++ " files." ++ nl) st)))
    else (killed,
          printf (cut_document format st)
            (eprintf (cr ++ "Completed! Found " ++ decimal (file_count st)
                        ++ " files." ++ nl) st)).
Proof.
  unfold finish. cbn [Z.eqb negb]. rewrite emit_prints.
  change (file_list (eprintf ?m st)) with (file_list st).
  destruct (printable (file_list st)); reflexivity.
Qed.

Lemma finish_same_but_err (format : string) (r : Z) (s1 s2 : state) :
  same_but_err s1 s2 ->
  fst (finish format (r, s1)) = fst (finish format (r, s2))
  /\ out (snd (finish format (r, s1))) = out (snd (finish format (r, s2))).
Proof.
  intros H. destruct (Z.eqb_spec r 0) as [->|Hr].
  - rewrite !finish_prints.
    destruct (document_same_but_err format s1 s2 H) as [D D'].
    destruct H as (L & C & O & M). rewrite L.
    destruct (printable (file_list s2)); cbn [fst snd free_file_list out printf eprintf];
      split; congruence.
  - unfold finish. replace (negb (r =? 0)) with true
      by (symmetry; apply negb_true_iff, Z.eqb_neq; exact Hr).
    split; [reflexivity|]. now destruct H as (_ & _ & O & _).
Qed.

(** A run that gets as far as the root and can open it: the walk gathers
    what one call of [add_file_entry] per visible object gathers, and the
    run ends by printing the document of that store, whole or cut short. *)
Lemma main_gathers
    (i : invocation) (st : state) (path : string) (rest : list string) (s : stat) :
  forallb accepted_format (options i) = true ->
  operands i = path :: rest ->
  stat_result i = ok s -> S_ISDIR (st_mode s) = true ->
  opendir_result (root i) <> None ->
  let format := selected_format (options i) "json" in
  let gathered := add_all (beneath path (root i)) st in
  fst (gather i path st) = 0
  /\ same_but_err (snd (gather i path st)) gathered
  /\ main i st = finish format (0, snd (gather i path st))
  /\ (printable (file_list gathered) = true ->
      fst (main i st) = exited 0
      /\ out (snd (main i st)) = out st ++ document format gathered)
  /\ (printable (file_list gathered) = false ->
      fst (main i st) = killed
      /\ out (snd (main i st)) = out st ++ cut_document format gathered).
Proof.
  intros Ha Hop Hst Hdir Hroot format gathered.
  pose proof (crawl_same_as_add_all (root i) path
                (eprintf (probe_report i path) st) st ltac:(auto with store)) as S.
  fold gathered in S.
  assert (main i st = finish format (0, snd (gather i path st))) as E.
  { rewrite main_phases, (getopt_loop_accepted _ _ _ _ Ha), Hop, Hst, Hdir.
    cbn [negb]. rewrite gather_crawls.
    now rewrite crawl_opened at 1 by exact Hroot. }
  rewrite gather_crawls in *.
  split; [now rewrite crawl_opened by exact Hroot|].
  split; [exact S|]. split; [exact E|].
  rewrite E, finish_prints.
  destruct (document_same_but_err format _ _ S) as [D D'].
  destruct S as (L & C & O & M). rewrite L, D, D'.
  assert (out gathered = out st) as G by apply add_all_out.
  split; intros ->; cbn [fst snd free_file_list out printf eprintf];
    rewrite O, G; split; reflexivity.
Qed.

(** ** The claims *)

(** C1.  The store puts each new entry in front: after [n] successful calls
    of [add_file_entry] on an empty store, [file_list] is the entries in the
    reverse of the order of the calls, so its k-th entry is the one added by
    call number [n - k + 1].  Both emitters print their records in that
    order: all of them when [gmtime] converts every modification time, and
    otherwise those in front of the first entry that it does not convert,
    where the process dies. *)
Theorem C1_store_lists_newest_first (calls : list add_args) (st : state) :
  mallocs_succeed st -> file_list st = [] ->
  let n := List.length calls in
  let st' := add_all calls st in
  file_list st' = rev (map entry_of calls)
  /\ (forall k : nat, (1 <= k <= n)%nat ->
        nth_error (file_list st') (k - 1) = nth_error (map entry_of calls) (n - k))
  /\ (printable (rev (map entry_of calls)) = true ->
      output_json st'
      = returns (printf (json_document (file_count st')
                           (map json_object (rev (map entry_of calls)))) st')
      /\ output_csv st'
         = returns (printf (csv_document (map csv_row (rev (map entry_of calls)))) st'))
  /\ (forall (newer older : list file_entry) (e : file_entry),
        rev (map entry_of calls) = (newer ++ e :: older)%list ->
        printable newer = true -> convertible e = false ->
        output_json st'
        = dies (printf (json_cut_short (file_count st') (map json_object newer)) st')
        /\ output_csv st'
           = dies (printf (csv_document (map csv_row newer)) st')).
Proof.
  intros M E n st'.
  destruct (add_all_succeeds calls st M) as (L & _).
  fold st' in L. rewrite E, app_nil_r in L.
  split; [exact L|]. split; [|split].
  - intros k Hk. rewrite L, nth_error_rev, length_map. fold n.
    replace (k - 1 <? n)%nat with true by (symmetry; apply Nat.ltb_lt; lia).
    f_equal. lia.
  - intros P. rewrite output_json_prints, output_csv_prints, L, P.
    now rewrite convertible_prefix_printable.
  - intros newer older e S P C.
    destruct (convertible_prefix_app newer older e P C) as [P' C'].
    rewrite output_json_prints, output_csv_prints, L, S, P', C'.
    split; reflexivity.
Qed.

(** The [total_files] that [output_json] prints is the number of objects it
    prints, for every store whose counter agrees with its list, whose list
    has at most [INT_MAX] entries and whose modification times [gmtime]
    converts. *)
Lemma total_files_counts_the_objects (st : state) :
  count_matches st ->
  Z.of_nat (List.length (file_list st)) <= INT_MAX ->
  printable (file_list st) = true ->
  let objects := map json_object (file_list st) in
  output_json st
  = returns (printf (json_document (Z.of_nat (List.length objects)) objects) st).
Proof.
  intros C B P objects. rewrite output_json_prints, P.
  unfold objects. rewrite length_map, (file_count_fits_int st C B). reflexivity.
Qed.

(** C5.  [output_json] prints [file_count] as [total_files] before it looks
    at the list, and the process dies at the first entry whose modification
    time [gmtime] does not convert.  What has been printed by then is the
    metadata and the objects of the entries in front of that entry: fewer
    objects than [total_files] says. *)
Theorem C5_total_files_can_exceed_the_objects
    (st : state) (printed rest : list file_entry) (e : file_entry) :
  count_matches st ->
  Z.of_nat (List.length (file_list st)) <= INT_MAX ->
  file_list st = (printed ++ e :: rest)%list ->
  printable printed = true -> convertible e = false ->
  let objects := map json_object printed in
  output_json st = dies (printf (json_cut_short (file_count st) objects) st)
  /\ Z.of_nat (List.length objects) < file_count st.
Proof.
  intros C B S P N objects.
  destruct (convertible_prefix_app printed rest e P N) as [P' C'].
  split.
  - rewrite output_json_prints, S, P', C'. reflexivity.
  - rewrite (file_count_fits_int st C B), S. unfold objects.
    rewrite length_map, length_app. cbn [List.length]. lia.
Qed.

(** C10.  When [malloc] returns NULL, [add_file_entry] returns with the
    list, the counter and both streams as they were.  So a sequence of calls
    stores exactly the entries of the calls that got a block and writes
    nothing; a run that exits with 0 after printing JSON has printed the
    objects of the visible objects that got a block, with their number as
    [total_files]; and there is a run that exits with 0 although an object of
    the tree has no record. *)
Theorem C10_failed_allocation_drops_the_record_silently :
  (forall (path name : string) (inode size mtime mode : Z)
          (l : list file_entry) (c : Z) (o e : string) (later : list bool),
      add_file_entry path name inode size mtime mode (mk_state l c o e (false :: later))
      = mk_state l c o e later)
  /\ (forall (calls : list add_args) (st : state),
        file_list (add_all calls st)
        = (rev (map entry_of (stored calls (mallocs st))) ++ file_list st)%list
        /\ out (add_all calls st) = out st
        /\ err (add_all calls st) = err st)
  /\ (forall (i : invocation) (script : list bool),
        forallb accepted_format (options i) = true ->
        String.eqb (selected_format (options i) "json") "csv" = false ->
        fst (main i (initial_state script)) = exited 0 ->
        exists (path : string) (rest : list string),
          operands i = path :: rest
          /\ let kept := stored (beneath path (root i)) script in
             let objects := map json_object (rev (map entry_of kept)) in
             out (snd (main i (initial_state script)))
             = json_document (to_int (Z.of_nat (List.length objects))) objects
             /\ (Z.of_nat (List.length (beneath path (root i))) <= INT_MAX ->
                 out (snd (main i (initial_state script)))
                 = json_document (Z.of_nat (List.length objects)) objects))
  /\ (exists (i : invocation) (script : list bool),
        beneath "/r" (root i)
        = [mk_add_args "/r/a.txt" "a.txt" 12 2 0 33188]
        /\ fst (main i (initial_state script)) = exited 0
        /\ out (snd (main i (initial_state script))) = json_document 0 []).
Proof.
  split; [intros; apply add_fails|].
  split.
  { intros calls st. destruct (add_all_stores calls st) as (L & _ & O & E).
    repeat split; assumption. }
  split.
  - intros i script Ha Hf.
    pose proof (main_phases i (initial_state script)) as P.
    rewrite (getopt_loop_accepted _ _ _ _ Ha) in P.
    destruct (operands i) as [|path rest] eqn:Hop; [rewrite P; discriminate|].
    destruct (stat_result i) as [s|e] eqn:Hst; [|rewrite P; discriminate].
    destruct (S_ISDIR (st_mode s)) eqn:Hdir; [|rewrite P; discriminate].
    destruct (opendir_result (root i)) as [entries|] eqn:Hroot.
    2:{ rewrite P. cbn [negb]. rewrite gather_crawls, crawl_unopened by exact Hroot.
        discriminate. }
    clear P. intros Hexit. exists path, rest. split; [reflexivity|].
    destruct (main_gathers i (initial_state script) path rest s Ha Hop Hst Hdir
                ltac:(congruence)) as (_ & _ & _ & Hp & Hk).
    set (gathered := add_all (beneath path (root i)) (initial_state script)) in *.
    destruct (printable (file_list gathered)) eqn:Pr.
    2:{ destruct (Hk eq_refl) as [K _]. rewrite K in Hexit. discriminate. }
    destruct (Hp eq_refl) as [_ O]. clear Hp Hk. cbn [out initial_state append] in O.
    unfold document in O. rewrite Hf in O.
    destruct (add_all_stores (beneath path (root i)) (initial_state script))
      as (L & _). fold gathered in L. cbn [mallocs initial_state file_list] in L.
    rewrite app_nil_r in L.
    assert (count_matches gathered) as C
      by (apply add_all_count_matches; reflexivity).
    unfold count_matches in C. rewrite C, L in O. cbv zeta.
    rewrite length_map.
    split; [exact O|]. intros B. rewrite O. f_equal. apply to_int_small.
    pose proof (stored_length (beneath path (root i)) script) as SL.
    rewrite length_rev, length_map. unfold INT_MAX in *. lia.
  - exists (mk_invocation "indexer" [] ["/r"] (ok (mk_stat 2 4096 0 16877)) (ok tt) false
              (Obj None (Some [(".", Obj None None); ("..", Obj None None);
                               ("a.txt", Obj (Some (mk_stat 12 2 0 33188)) None)]))).
    exists [false].
    split; [reflexivity|].
    rewrite main_phases. cbn [getopt_loop prog options operands stat_result st_mode].
    change (S_ISDIR 16877) with true. cbn [negb].
    rewrite gather_crawls, crawl_opened by (cbn; discriminate).
    rewrite finish_prints. split; reflexivity.
Qed.

(** C4 (amended).  In a tree where every [lstat] and every [opendir]
    succeeds and no path outgrows [full_path], and while every allocation
    succeeds, the walk returns 0 and adds exactly one record per object
    strictly beneath the directory it was started on: N + M records, of
    which N are not directories and M are, and these are all the entries of
    the tree.  The directory itself and the entries [.] and [..] add none,
    and the objects beneath an entry are visited exactly when its mode bits
    say it is a directory.  The counter moves up by N + M when that does not
    take it past [INT_MAX]. *)
Theorem C4_one_record_per_object_beneath_the_root
    (path : string) (o : fsobj) (st : state) :
  walkable o = true -> paths_fit path o = true -> mallocs_succeed st ->
  let st' := snd (crawl_filesystem path o st) in
  let N := non_directories_beneath path o in
  let M := directories_beneath path o in
  let records := map entry_of (tree_objects path o) in
  fst (crawl_filesystem path o st) = 0
  /\ (N + M)%nat = entries_beneath o
  /\ file_list st' = (rev records ++ file_list st)%list
  /\ List.length records = (N + M)%nat
  /\ List.length (filter (fun e => S_ISDIR (fe_mode e)) records) = M
  /\ List.length (filter (fun e => negb (S_ISDIR (fe_mode e))) records) = N
  /\ List.length (file_list st') = (List.length (file_list st) + (N + M))%nat
  /\ (0 <= file_count st -> file_count st + Z.of_nat (N + M) <= INT_MAX ->
      file_count st' = file_count st + Z.of_nat (N + M)).
Proof.
  intros W F Ms st' N M records.
  assert (N + M = List.length (tree_objects path o))%nat as E.
  { unfold N, M, non_directories_beneath, directories_beneath.
    rewrite Nat.add_comm. apply filter_length. }
  destruct (crawl_same_as_add_all o path st st (same_but_err_refl st))
    as (L & C & _).
  fold st' in L, C. rewrite (beneath_tree_objects o path F) in L, C.
  destruct (add_all_succeeds (tree_objects path o) st Ms) as (L' & C' & _).
  rewrite L' in L. fold records in L.
  split.
  { rewrite crawl_filesystem_result.
    destruct o as [l [entries|]]; [reflexivity | discriminate W]. }
  split; [rewrite E; now apply walkable_tree_objects|].
  split; [exact L|].
  split; [unfold records; now rewrite length_map|].
  split; [apply records_by_kind|].
  split; [apply records_by_kind|].
  rewrite E. split.
  - rewrite L, length_app, length_rev. unfold records. rewrite length_map. lia.
  - intros H0 Hmax. rewrite C. now apply C'.
Qed.

(** C6.  A directory that cannot be opened costs only what is beneath it.
    [crawl_filesystem] returns -1 for it and leaves the state as it is; the
    walk of its parent ignores that, goes on with the entries that follow
    and returns 0.  The objects seen are those before the directory with all
    beneath them, the directory itself, and those after it with all beneath
    them; the store ends with one entry for each of them that got a block,
    in front of what it held before.  This holds wherever in a tree the
    directories that cannot be opened lie.  [main] gets 0 from the gathering
    phase, does not exit with 1, and prints the document of these records. *)
Theorem C6_unopenable_subdirectory_is_skipped
    (path : string) (l : option stat) (before after : list (string * fsobj))
    (d_name : string) (s : stat) (st : state) :
  is_dot d_name = false -> S_ISDIR (st_mode s) = true ->
  let full_path := str_take 4095 (path ++ "/" ++ d_name) in
  let o := Obj l (Some (before ++ (d_name, Obj (Some s) None) :: after)%list) in
  let own_record :=
    mk_add_args full_path d_name (st_ino s) (st_size s) (st_mtime s) (st_mode s) in
  let seen_before := beneath path (Obj l (Some before)) in
  let seen_after := beneath path (Obj l (Some after)) in
  let st' := snd (crawl_filesystem path o st) in
  (forall st0 : state, crawl_filesystem full_path (Obj (Some s) None) st0 = (-1, st0))
  /\ fst (crawl_filesystem path o st) = 0
  /\ st' = readdir_loop crawl_filesystem path after
             (report_progress
                (add_file_entry full_path d_name (st_ino s) (st_size s) (st_mtime s)
                   (st_mode s) (snd (crawl_filesystem path (Obj l (Some before)) st))))
  /\ beneath path o = (seen_before ++ own_record :: seen_after)%list
  /\ file_list st'
     = (rev (map entry_of (stored (beneath path o) (mallocs st))) ++ file_list st)%list
  /\ (mallocs_succeed st ->
      file_list st'
      = (rev (map entry_of seen_after) ++ entry_of own_record
           :: rev (map entry_of seen_before) ++ file_list st)%list)
  /\ out st' = out st
  /\ (forall (top_path : string) (top : fsobj) (st0 : state),
        opendir_result top <> None ->
        fst (crawl_filesystem top_path top st0) = 0
        /\ file_list (snd (crawl_filesystem top_path top st0))
           = (rev (map entry_of (stored (beneath top_path top) (mallocs st0)))
                ++ file_list st0)%list)
  /\ (forall (i : invocation) (st0 : state) (root_path : string)
             (rest : list string) (s0 : stat),
        root i = o ->
        forallb accepted_format (options i) = true ->
        operands i = root_path :: rest ->
        stat_result i = ok s0 -> S_ISDIR (st_mode s0) = true ->
        let format := selected_format (options i) "json" in
        let gathered := add_all (beneath root_path o) st0 in
        main i st0 = finish format (0, snd (gather i root_path st0))
        /\ fst (main i st0) <> exited 1
        /\ (printable (file_list gathered) = true ->
            fst (main i st0) = exited 0
            /\ out (snd (main i st0)) = out st0 ++ document format gathered)).
Proof.
  intros Hdot Hdir full_path o own_record seen_before seen_after st'.
  assert (Hopen : opendir_result o <> None) by discriminate.
  assert (Hseen : beneath path o = (seen_before ++ own_record :: seen_after)%list)
    by now apply beneath_unopened.
  destruct (crawl_stores path o st) as (L & _ & O). fold st' in L, O.
  split; [reflexivity|].
  split; [reflexivity|].
  split.
  { unfold st', o. cbn [crawl_filesystem snd].
    rewrite readdir_loop_app. cbn [readdir_loop]. now rewrite Hdot, Hdir. }
  split; [exact Hseen|].
  split; [exact L|].
  split.
  { intros Ms. rewrite L, Hseen, stored_all by exact Ms.
    rewrite map_app, rev_app_distr. cbn [map rev].
    now rewrite <- !app_assoc. }
  split; [exact O|].
  split.
  { intros top_path top st0 Htop. split.
    - rewrite crawl_filesystem_result. destruct (opendir_result top); congruence.
    - apply crawl_stores. }
  intros i st0 root_path rest s0 Hr Ha Hop Hst Hd format gathered.
  rewrite <- Hr in Hopen.
  destruct (main_gathers i st0 root_path rest s0 Ha Hop Hst Hd Hopen)
    as (_ & _ & E & Hp & Hk).
  rewrite Hr in Hp, Hk. fold format gathered in Hp, Hk.
  split; [exact E|]. split; [|exact Hp].
  destruct (printable (file_list gathered)).
  - destruct (Hp eq_refl) as [-> _]. discriminate.
  - destruct (Hk eq_refl) as [-> _]. discriminate.
Qed.

(** C9.  [process_inode_item] compares [item_len] with the size of the
    fixed layout before it reads.  When [item_len] is at least that size (and
    the buffer holds [item_len] bytes) it reads the eight bytes of [size],
    the eight bytes of [mtime.sec] and the four bytes of [mode], all of them
    below [item_len], and returns after one call of [add_file_entry]; when
    [item_len] is smaller it reads nothing and returns with the state
    unchanged.  This holds whether the compiler lays the unnamed timestamp
    structure out in 12 bytes or in more. *)
Theorem C9_inode_item_is_read_within_item_len
    (objectid item_len : Z) (item_data : list byte) (path : string) (st : state) :
  12 <= timespec_size ->
  item_len <= Z.of_nat (List.length item_data) ->
  (sizeof simple_inode_item <= item_len ->
     exists (reads : list Z) (name : string) (size mtime mode : Z),
       process_inode_item objectid item_data item_len path st
       = (reads, Some (add_file_entry path name objectid size mtime mode st))
       /\ (let s := offsetof simple_inode_item "size" in
           let t := offsetof simple_inode_item "mtime" in
           let m := offsetof simple_inode_item "mode" in
           reads = [s + 7; s + 6; s + 5; s + 4; s + 3; s + 2; s + 1; s;
                    t + 7; t + 6; t + 5; t + 4; t + 3; t + 2; t + 1; t;
                    m + 3; m + 2; m + 1; m])
       /\ Forall (fun i => 0 <= i < item_len) reads)
  /\ (item_len < sizeof simple_inode_item ->
        process_inode_item objectid item_data item_len path st = ([], Some st)).
Proof.
  intros Hts Hbuf.
  destruct simple_inode_item_layout as (Esz & Esize & Emode & Emtime).
  unfold process_inode_item. split; intros Hlen.
  - replace (item_len <? sizeof simple_inode_item) with false
      by (symmetry; apply Z.ltb_ge; exact Hlen).
    rewrite Esize, Emode, Emtime. rewrite Esz in Hlen.
    destruct (get_le64_in_range 16 item_data) as [size E1]; [lia | lia |].
    destruct (get_le64_in_range (112 + 2 * timespec_size) item_data) as [mtime E2];
      [lia | lia |].
    destruct (get_le32_in_range 52 item_data) as [mode E3]; [lia | lia |].
    unfold bind, ret. rewrite E1, E2, E3.
    do 5 eexists. split; [reflexivity|]. split; [reflexivity|].
    repeat (constructor; [lia|]). constructor.
  - replace (item_len <? sizeof simple_inode_item) with true
      by (symmetry; apply Z.ltb_lt; exact Hlen).
    reflexivity.
Qed.


(** The escaper follows the documented rule on every string whose bytes are
    all below 128, and on every string where plain [char] is unsigned. *)
Lemma json_escape_documented (src : string) (dst_size : Z) :
  char_signed = false \/ seven_bit src = true ->
  2 * Z.of_nat (String.length src) + 2 <= dst_size < UINT64_MOD ->
  json_escape src dst_size = documented_escape src.
Proof.
  intros Hc Hs. unfold json_escape.
  apply json_escape_loop_documented; [exact Hc | lia | lia].
Qed.

(** The two buffers of [output_json] are large enough for every entry that
    [add_file_entry] makes. *)
Lemma output_json_buffers_suffice (path name : string) (inode size mtime mode : Z) :
  let e := new_entry path name inode size mtime mode in
  2 * Z.of_nat (String.length (fe_path e)) + 2 <= 8192 < UINT64_MOD
  /\ 2 * Z.of_nat (String.length (fe_name e)) + 2 <= 512 < UINT64_MOD.
Proof.
  cbn [new_entry fe_path fe_name].
  pose proof (length_str_take 4095 path). pose proof (length_str_take 255 name).
  unfold UINT64_MOD. repeat split; lia.
Qed.

(** So for every stored entry the escaper follows the documented rule,
    whenever [src[i] >= 32] compares byte values. *)
Lemma stored_entry_is_escaped_as_documented
    (path name : string) (inode size mtime mode : Z) :
  let e := new_entry path name inode size mtime mode in
  (char_signed = false \/ seven_bit (fe_path e) = true ->
   json_escape (fe_path e) 8192 = documented_escape (fe_path e))
  /\ (char_signed = false \/ seven_bit (fe_name e) = true ->
      json_escape (fe_name e) 512 = documented_escape (fe_name e)).
Proof.
  intros e.
  destruct (output_json_buffers_suffice path name inode size mtime mode) as [Hp Hn].
  split; intros H; apply json_escape_documented; assumption.
Qed.

(** C3 (amended).  Both emitters print one record per entry of [file_list],
    in list order, so they print the same number of records in the same
    order, and where one of them dies at an entry that [gmtime] does not
    convert the other dies at the same entry; inode, size, timestamp, mode
    and is_dir are the same in both.  Path and name differ: [output_json]
    passes them through [json_escape], [output_csv] prints them as they
    are. *)
Theorem C3_emitters_agree_except_for_escaping (st : state) :
  (printable (file_list st) = true ->
   output_json st
   = returns (printf (json_document (file_count st)
                        (map (fun e => json_frame (json_fields e)) (file_list st))) st)
   /\ output_csv st
      = returns (printf (csv_document
                           (map (fun e => csv_frame (csv_fields e)) (file_list st))) st))
  /\ (printable (file_list st) = false ->
      let printed := convertible_prefix (file_list st) in
      output_json st
      = dies (printf (json_cut_short (file_count st)
                        (map (fun e => json_frame (json_fields e)) printed)) st)
      /\ output_csv st
         = dies (printf (csv_document
                           (map (fun e => csv_frame (csv_fields e)) printed)) st))
  /\ List.length (map json_object (file_list st))
     = List.length (map csv_row (file_list st))
  /\ forall e : file_entry,
       List.length (json_fields e) = 7%nat
       /\ List.length (csv_fields e) = 7%nat
       /\ nth 0 (json_fields e) "" = json_escape (nth 0 (csv_fields e) "") 8192
       /\ nth 1 (json_fields e) "" = json_escape (nth 1 (csv_fields e) "") 512
       /\ skipn 2 (json_fields e) = skipn 2 (csv_fields e).
Proof.
  split; [|split; [|split]].
  - intros P. rewrite output_json_prints, output_csv_prints, P.
    rewrite convertible_prefix_printable by exact P. split; reflexivity.
  - intros P printed. rewrite output_json_prints, output_csv_prints, P.
    split; reflexivity.
  - now rewrite !length_map.
  - intros e. repeat split.
Qed.

(** C7 (amended).  A probe error is reported: [search_btrfs_metadata] writes
    a line that starts with [Error:] to stderr and returns -1 with the store
    untouched.  It does not end the run: [main] goes on with
    [crawl_filesystem], which gathers the records, and the exit code and
    stdout are those of the run in which the probe succeeds. *)
Theorem C7_probe_failure_is_reported_and_falls_back
    (i : invocation) (path : string) (st : state) :
  probe_fails i = true ->
  (exists detail : string,
      probe_report i path = "Error: " ++ detail ++ nl
      /\ search_btrfs_metadata path (open_result i) (ioctl_ok i) (root i) st
         = (-1, eprintf ("Error: " ++ detail ++ nl) st))
  /\ (forall (rest : list string) (s : stat),
        forallb accepted_format (options i) = true ->
        operands i = path :: rest -> stat_result i = ok s ->
        S_ISDIR (st_mode s) = true ->
        main i st
        = finish (selected_format (options i) "json")
            (crawl_filesystem path (root i) (eprintf (probe_report i path) st)))
  /\ fst (main i st) = fst (main (with_probe (ok tt) true i) st)
  /\ out (snd (main i st)) = out (snd (main (with_probe (ok tt) true i) st)).
Proof.
  intros Hf. split; [|split].
  - unfold probe_fails in Hf. unfold probe_report, search_btrfs_metadata.
    destruct (open_result i) as [u|e].
    + rewrite Hf.
      exists (path ++ " is not a btrfs filesystem or lacks permissions").
      rewrite !append_assoc. split; reflexivity.
    + exists ("Cannot open " ++ path ++ ": " ++ e).
      cbn [append]. rewrite !append_assoc. split; reflexivity.
  - intros rest s Ha Hop Hst Hdir.
    rewrite main_phases, (getopt_loop_accepted _ _ _ _ Ha), Hop, Hst, Hdir.
    cbn [negb]. now rewrite gather_crawls.
  - to_gather i st ltac:(split; reflexivity).
    rewrite (surjective_pairing
               (crawl_filesystem path0 (root i) (eprintf (probe_report i path0) st0))).
    rewrite (surjective_pairing
               (crawl_filesystem path0 (root i)
                  (eprintf (probe_report (with_probe (ok tt) true i) path0) st0))).
    rewrite !crawl_filesystem_result.
    apply finish_same_but_err, crawl_same_but_err. auto with store.
Qed.

(** ** Further properties of the program

    *** The byte decoder reads back what was stored *)

Lemma lor_shiftl_add (hi lo k : Z) :
  0 <= k -> 0 <= lo < 2 ^ k -> Z.lor (Z.shiftl hi k) lo = hi * 2 ^ k + lo.
Proof.
  intros Hk Hlo. rewrite Z.shiftl_mul_pow2 by exact Hk.
  rewrite <- Z.add_lor_land.
  replace (Z.land (hi * 2 ^ k) lo) with 0; [lia|].
  symmetry. apply Z.bits_inj'. intros n Hn. rewrite Z.land_spec, Z.bits_0.
  destruct (Z.ltb_spec n k) as [Hlt|Hge].
  - now rewrite Z.mul_pow2_bits_low.
  - destruct (Z.eq_dec lo 0) as [->|Hne]; [now rewrite Z.bits_0, andb_false_r|].
    rewrite (Z.bits_above_log2 lo n); [apply andb_false_r | lia |].
    apply Z.log2_lt_pow2; [lia|].
    apply Z.lt_le_trans with (2 ^ k); [lia|]. apply Z.pow_le_mono_r; lia.
Qed.

Lemma byte_range (b : byte) : 0 <= Z.of_N (Byte.to_N b) < 256.
Proof. pose proof (Byte.to_N_bounded b). lia. Qed.

Lemma byte_of_Z_value (z : Z) : Z.of_N (Byte.to_N (byte_of_Z z)) = z mod 256.
Proof.
  unfold byte_of_Z. pose proof (Z.mod_pos_bound z 256 ltac:(lia)) as B.
  destruct (Byte.of_N (Z.to_N (z mod 256))) as [b|] eqn:E.
  - apply Byte.to_of_N in E. rewrite E. lia.
  - apply Byte.of_N_None_iff in E. lia.
Qed.

Lemma load_nth (i : Z) (buf : list byte) (b : byte) :
  0 <= i -> nth_error buf (Z.to_nat i) = Some b ->
  load i buf = ([i], Some (Z.of_N (Byte.to_N b))).
Proof.
  intros H0 E. unfold load.
  assert (Z.to_nat i < List.length buf)%nat by (apply nth_error_Some; congruence).
  replace ((0 <=? i) && (i <? Z.of_nat (List.length buf))) with true
    by (symmetry; apply andb_true_intro; split; [apply Z.leb_le | apply Z.ltb_lt]; lia).
  now rewrite E.
Qed.

Lemma bytes_at_nth (off : Z) (n k : nat) (buf l : list byte) (b : byte) :
  0 <= off -> bytes_at off n buf = l -> nth_error l k = Some b ->
  nth_error buf (Z.to_nat (off + Z.of_nat k)) = Some b.
Proof.
  intros H0 <- E. unfold bytes_at in E.
  rewrite nth_error_firstn in E.
  destruct (k <? n)%nat; [|discriminate].
  rewrite nth_error_skipn in E. rewrite <- E. f_equal. lia.
Qed.


Lemma le64_lor (p0 p1 p2 p3 p4 p5 p6 p7 : Z) :
  0 <= p0 < 256 -> 0 <= p1 < 256 -> 0 <= p2 < 256 -> 0 <= p3 < 256 ->
  0 <= p4 < 256 -> 0 <= p5 < 256 -> 0 <= p6 < 256 -> 0 <= p7 < 256 ->
  Z.lor (Z.lor (Z.lor (Z.lor (Z.lor (Z.lor (Z.lor
    (to_u64 (Z.shiftl p7 56)) (to_u64 (Z.shiftl p6 48)))
    (to_u64 (Z.shiftl p5 40))) (to_u64 (Z.shiftl p4 32)))
    (to_u64 (Z.shiftl p3 24))) (to_u64 (Z.shiftl p2 16)))
    (to_u64 (Z.shiftl p1 8))) p0
  = p0 + 256 * (p1 + 256 * (p2 + 256 * (p3 + 256 * (p4 + 256 * (p5 + 256 * (p6 + 256 * (p7 + 256 * 0))))))).
Proof.
  intros.
  rewrite !Z.shiftl_mul_pow2 by lia.
  unfold to_u64, UINT64_MOD. rewrite !Z.mod_small by lia.
  rewrite <- !Z.shiftl_mul_pow2 by lia.
  rewrite <- !Z.lor_assoc.
  rewrite (lor_shiftl_add p1 p0 8) by lia.
  rewrite (lor_shiftl_add p2 _ 16) by lia.
  rewrite (lor_shiftl_add p3 _ 24) by lia.
  rewrite (lor_shiftl_add p4 _ 32) by lia.
  rewrite (lor_shiftl_add p5 _ 40) by lia.
  rewrite (lor_shiftl_add p6 _ 48) by lia.
  rewrite (lor_shiftl_add p7 _ 56) by lia.
  lia.
Qed.

Lemma le32_lor (p0 p1 p2 p3 : Z) :
  0 <= p0 < 256 -> 0 <= p1 < 256 -> 0 <= p2 < 256 -> 0 <= p3 < 256 ->
  Z.lor (Z.lor (Z.lor
    (to_u32 (Z.shiftl p3 24)) (to_u32 (Z.shiftl p2 16)))
    (to_u32 (Z.shiftl p1 8))) p0
  = p0 + 256 * (p1 + 256 * (p2 + 256 * (p3 + 256 * 0))).
Proof.
  intros.
  rewrite !Z.shiftl_mul_pow2 by lia.
  unfold to_u32, UINT32_MOD. rewrite !Z.mod_small by lia.
  rewrite <- !Z.shiftl_mul_pow2 by lia.
  rewrite <- !Z.lor_assoc.
  rewrite (lor_shiftl_add p1 p0 8) by lia.
  rewrite (lor_shiftl_add p2 _ 16) by lia.
  rewrite (lor_shiftl_add p3 _ 24) by lia.
  lia.
Qed.

Lemma get_le64_value (off : Z) (buf : list byte) (b0 b1 b2 b3 b4 b5 b6 b7 : byte) :
  0 <= off ->
  bytes_at off 8 buf = [b0; b1; b2; b3; b4; b5; b6; b7] ->
  get_le64 off buf
  = ([off + 7; off + 6; off + 5; off + 4; off + 3; off + 2; off + 1; off],
     Some (le_value [b0; b1; b2; b3; b4; b5; b6; b7])).
Proof.
  intros H0 E.
  assert (L : forall (k : nat) b, nth_error [b0; b1; b2; b3; b4; b5; b6; b7] k = Some b ->
              load (off + Z.of_nat k) buf = ([off + Z.of_nat k], Some (Z.of_N (Byte.to_N b)))).
  { intros k b Hk. apply load_nth; [lia|]. now apply (bytes_at_nth off 8 k buf _ b H0 E). }
  pose proof (L 7%nat b7 eq_refl) as E7. pose proof (L 6%nat b6 eq_refl) as E6.
  pose proof (L 5%nat b5 eq_refl) as E5. pose proof (L 4%nat b4 eq_refl) as E4.
  pose proof (L 3%nat b3 eq_refl) as E3. pose proof (L 2%nat b2 eq_refl) as E2.
  pose proof (L 1%nat b1 eq_refl) as E1. pose proof (L 0%nat b0 eq_refl) as E0.
  cbn [Z.of_nat Pos.of_succ_nat Pos.succ] in *. rewrite Z.add_0_r in E0.
  unfold get_le64, bind, ret. rewrite E7, E6, E5, E4, E3, E2, E1, E0.
  cbn [app le_value]. do 2 f_equal.
  apply le64_lor; apply byte_range.
Qed.

Lemma get_le32_value (off : Z) (buf : list byte) (b0 b1 b2 b3 : byte) :
  0 <= off ->
  bytes_at off 4 buf = [b0; b1; b2; b3] ->
  get_le32 off buf
  = ([off + 3; off + 2; off + 1; off], Some (le_value [b0; b1; b2; b3])).
Proof.
  intros H0 E.
  assert (L : forall (k : nat) b, nth_error [b0; b1; b2; b3] k = Some b ->
              load (off + Z.of_nat k) buf = ([off + Z.of_nat k], Some (Z.of_N (Byte.to_N b)))).
  { intros k b Hk. apply load_nth; [lia|]. now apply (bytes_at_nth off 4 k buf _ b H0 E). }
  pose proof (L 3%nat b3 eq_refl) as E3. pose proof (L 2%nat b2 eq_refl) as E2.
  pose proof (L 1%nat b1 eq_refl) as E1. pose proof (L 0%nat b0 eq_refl) as E0.
  cbn [Z.of_nat Pos.of_succ_nat Pos.succ] in *. rewrite Z.add_0_r in E0.
  unfold get_le32, bind, ret. rewrite E3, E2, E1, E0.
  cbn [app le_value]. do 2 f_equal.
  apply le32_lor; apply byte_range.
Qed.

Lemma le_value_le_bytes (n : nat) : forall v : Z,
  le_value (le_bytes n v) = v mod 256 ^ Z.of_nat n.
Proof.
  induction n as [|n IH]; intros v.
  - cbn. now rewrite Z.mod_1_r.
  - cbn [le_bytes le_value]. rewrite byte_of_Z_value, IH.
    rewrite Nat2Z.inj_succ, Z.pow_succ_r by lia.
    rewrite Z.rem_mul_r by lia. reflexivity.
Qed.

Lemma strrchr_splits (s : string) (c : ascii) (t : string) :
  strrchr s c = Some t ->
  exists pre t', s = pre ++ t /\ t = String c t' /\ strrchr t' c = None.
Proof.
  revert t. induction s as [|d s IH]; intros t H; [discriminate|].
  cbn [strrchr] in H. destruct (strrchr s c) as [u|] eqn:E.
  - injection H as <-. destruct (IH u eq_refl) as (pre & t' & -> & -> & N).
    exists (String d pre), t'. repeat split. exact N.
  - destruct (Ascii.eqb_spec d c) as [->|]; [|discriminate].
    injection H as <-. exists "", s. repeat split. exact E.
Qed.

(** X1.  [get_le64] and [get_le32] read back an integer stored least
    significant byte first: on the eight (four) bytes that [le_bytes] makes
    of a value below 2^64 (2^32) they return that value, wherever in the
    buffer the bytes lie. *)
Theorem X1_get_le_reads_back_le_bytes (off : Z) (buf : list byte) (v : Z) :
  0 <= off ->
  (0 <= v < UINT64_MOD -> bytes_at off 8 buf = le_bytes 8 v ->
   snd (get_le64 off buf) = Some v)
  /\ (0 <= v < UINT32_MOD -> bytes_at off 4 buf = le_bytes 4 v ->
      snd (get_le32 off buf) = Some v).
Proof.
  intros H0. split; intros Hv E.
  - pose proof (le_value_le_bytes 8 v) as V. cbn [le_bytes] in E, V.
    rewrite (get_le64_value off buf _ _ _ _ _ _ _ _ H0 E). cbn [snd].
    rewrite V. f_equal. apply Z.mod_small. exact Hv.
  - pose proof (le_value_le_bytes 4 v) as V. cbn [le_bytes] in E, V.
    rewrite (get_le32_value off buf _ _ _ _ H0 E). cbn [snd].
    rewrite V. f_equal. apply Z.mod_small. exact Hv.
Qed.

(** X2.  [process_inode_item] decodes the item: when the bytes of the size,
    mtime.sec and mode members spell [size], [mtime] and [mode], and
    [item_len] passes the length check, it adds the entry that has exactly
    these values, [objectid] as its inode, and the last component of [path]
    as its name. *)
Theorem X2_process_inode_item_decodes_the_item
    (objectid item_len size mtime mode : Z) (item_data : list byte)
    (path : string) (st : state) :
  12 <= timespec_size ->
  sizeof simple_inode_item <= item_len ->
  0 <= size < UINT64_MOD -> 0 <= mtime < UINT64_MOD -> 0 <= mode < UINT32_MOD ->
  bytes_at (offsetof simple_inode_item "size") 8 item_data = le_bytes 8 size ->
  bytes_at (offsetof simple_inode_item "mtime") 8 item_data = le_bytes 8 mtime ->
  bytes_at (offsetof simple_inode_item "mode") 4 item_data = le_bytes 4 mode ->
  snd (process_inode_item objectid item_data item_len path st)
  = Some (add_file_entry path (name_of_path path) objectid size mtime mode st).
Proof.
  intros Hts Hlen Hs Hm Hmo Es Em Emo.
  destruct simple_inode_item_layout as (_ & Osize & Omode & Omtime).
  pose proof (le_value_le_bytes 8 size) as Vs.
  pose proof (le_value_le_bytes 8 mtime) as Vm.
  pose proof (le_value_le_bytes 4 mode) as Vmo.
  rewrite Z.mod_small in Vs, Vm, Vmo by assumption.
  cbn [le_bytes] in Es, Em, Emo, Vs, Vm, Vmo.
  unfold process_inode_item.
  replace (item_len <? sizeof simple_inode_item) with false
    by (symmetry; apply Z.ltb_ge; exact Hlen).
  rewrite Osize in *. rewrite Omtime in *. rewrite Omode in *.
  unfold bind, ret.
  rewrite (get_le64_value 16 item_data _ _ _ _ _ _ _ _ ltac:(lia) Es).
  rewrite (get_le64_value (112 + 2 * timespec_size) item_data _ _ _ _ _ _ _ _
             ltac:(lia) Em).
  rewrite (get_le32_value 52 item_data _ _ _ _ ltac:(lia) Emo).
  cbn [snd]. rewrite Vs, Vm, Vmo. reflexivity.
Qed.

(** X3.  The name that [process_inode_item] gives an entry is the last
    component of its path: it holds no slash, the path is a directory part
    followed by it, the directory part is empty or ends in a slash, and a
    path without a slash is its own name. *)
Theorem X3_name_of_path_is_the_last_component (path : string) :
  strrchr (name_of_path path) "/" = None
  /\ (exists dir : string,
        path = dir ++ name_of_path path
        /\ (dir = "" \/ exists d : string, dir = d ++ "/"))
  /\ (strrchr path "/" = None -> name_of_path path = path).
Proof.
  unfold name_of_path. destruct (strrchr path "/") as [t|] eqn:E.
  - destruct (strrchr_splits path "/" t E) as (pre & t' & -> & -> & N).
    split; [exact N|]. split; [|discriminate].
    exists (pre ++ "/"). split; [now rewrite append_assoc|].
    right. now exists pre.
  - split; [exact E|]. split; [|reflexivity].
    exists "". split; [reflexivity | now left].
Qed.

(** *** json_escape: bounds, shape of the output, reading it back *)

(** Splits on the five [case] labels of the [switch], then on [tac]. *)
Ltac switch_cases c tac :=
  destruct (c =? dquote)%char eqn:?Edq; [tac|];
  destruct (c =? backslash)%char eqn:?Ebs; [tac|];
  destruct (c =? newline)%char eqn:?Enl; [tac|];
  destruct (c =? carriage_return)%char eqn:?Ecr; [tac|];
  destruct (c =? tab)%char eqn:?Etab; [tac|].

Lemma char_value_le_byte_value (c : ascii) : char_value c <= byte_value c.
Proof.
  unfold char_value, byte_value.
  destruct (char_signed && (128 <=? Z.of_N (N_of_ascii c))); lia.
Qed.

(** While the two bounds of the loop are out of reach, nothing is cut. *)
Lemma json_escape_loop_with_room (src : string) :
  forall dst_size dst_idx : Z,
    0 <= dst_idx ->
    dst_idx + 2 * Z.of_nat (String.length src) <= to_u64 (dst_size - 2) + 1 ->
    dst_idx + 2 * Z.of_nat (String.length src) <= to_u64 (dst_size - 3) + 1 ->
    json_escape_loop src dst_size dst_idx = json_escape_bytes src.
Proof.
  induction src as [|c rest IH]; intros dst_size dst_idx H0 H2 H3; [reflexivity|].
  cbn [String.length] in H2, H3. rewrite Nat2Z.inj_succ in H2, H3.
  cbn [json_escape_loop json_escape_bytes]. unfold json_escape_byte.
  replace (dst_idx <? to_u64 (dst_size - 2)) with true
    by (symmetry; apply Z.ltb_lt; lia).
  replace (dst_idx <? to_u64 (dst_size - 3)) with true
    by (symmetry; apply Z.ltb_lt; lia).
  switch_cases c ltac:(cbn [append chr]; do 2 f_equal; apply IH; lia).
  destruct (32 <=? char_value c); cbn [append chr]; [f_equal|]; apply IH; lia.
Qed.

Lemma json_escape_loop_bounded (src : string) :
  forall dst_size dst_idx : Z,
    2 <= dst_size < UINT64_MOD -> 0 <= dst_idx <= dst_size - 2 ->
    dst_idx + Z.of_nat (String.length (json_escape_loop src dst_size dst_idx))
    <= dst_size - 2.
Proof.
  induction src as [|c rest IH]; intros dst_size dst_idx Hs Hi; [cbn; lia|].
  cbn [json_escape_loop]. rewrite (to_u64_small (dst_size - 2)) by lia.
  destruct (Z.ltb_spec dst_idx (dst_size - 2)) as [Hlt|Hge]; [|cbn; lia].
  rewrite (to_u64_small (dst_size - 3)) by lia.
  assert (Hrec : forall i, 0 <= i <= dst_size - 2 ->
            i + Z.of_nat (String.length (json_escape_loop rest dst_size i))
            <= dst_size - 2) by (intros i Hi'; now apply IH).
  destruct (Z.ltb_spec dst_idx (dst_size - 3)) as [Hlt3|Hge3].
  - switch_cases c ltac:(cbn [String.length]; rewrite !Nat2Z.inj_succ;
                          specialize (Hrec (dst_idx + 2)); lia).
    destruct (32 <=? char_value c).
    + cbn [String.length]. rewrite Nat2Z.inj_succ. specialize (Hrec (dst_idx + 1)). lia.
    + apply Hrec. lia.
  - switch_cases c ltac:(apply Hrec; lia).
    destruct (32 <=? char_value c).
    + cbn [String.length]. rewrite Nat2Z.inj_succ. specialize (Hrec (dst_idx + 1)). lia.
    + apply Hrec. lia.
Qed.

(** X4.  With a buffer of at least two bytes [json_escape] stays inside it:
    it stores at most [dst_size - 2] characters, so the terminator it writes
    after them lands at an index below [dst_size], however long the source
    is. *)
Theorem X4_json_escape_stays_in_its_buffer (src : string) (dst_size : Z) :
  2 <= dst_size < UINT64_MOD ->
  Z.of_nat (String.length (json_escape src dst_size)) <= dst_size - 2.
Proof.
  intros Hs. pose proof (json_escape_loop_bounded src dst_size 0 Hs). unfold json_escape.
  lia.
Qed.

(** X5.  With a buffer of zero or one byte the bounds [dst_size - 2] and
    [dst_size - 3], computed in [size_t], wrap around to the top of the
    range: nothing is cut, the whole escaped source is stored, and the
    terminator lands at an index that is not below [dst_size]. *)
Theorem X5_json_escape_overruns_a_tiny_buffer (src : string) (dst_size : Z) :
  dst_size = 0 \/ dst_size = 1 ->
  2 * Z.of_nat (String.length src) + 4 <= UINT64_MOD ->
  json_escape src dst_size = json_escape_bytes src
  /\ (json_escape_bytes src <> "" ->
      dst_size <= Z.of_nat (String.length (json_escape src dst_size))).
Proof.
  intros Hd Hl.
  assert (E : json_escape src dst_size = json_escape_bytes src).
  { assert (to_u64 (0 - 2) = UINT64_MOD - 2) as W02 by reflexivity.
    assert (to_u64 (0 - 3) = UINT64_MOD - 3) as W03 by reflexivity.
    assert (to_u64 (1 - 2) = UINT64_MOD - 1) as W12 by reflexivity.
    assert (to_u64 (1 - 3) = UINT64_MOD - 2) as W13 by reflexivity.
    unfold json_escape. apply json_escape_loop_with_room; [lia | |];
      destruct Hd as [-> | ->]; rewrite ?W02, ?W03, ?W12, ?W13; lia. }
  split; [exact E|]. rewrite E. intros Hne.
  destruct (json_escape_bytes src); [congruence|].
  cbn [String.length]. rewrite Nat2Z.inj_succ. lia.
Qed.

(** X6.  Whatever the source and the size of the buffer, what [json_escape]
    stores is the body of a JSON string: it holds no control character and
    no bare double quote, and each backslash in it starts one of the five
    escapes.  An escape is stored whole or not at all, also where the output
    is cut. *)
Theorem X6_json_escape_output_is_well_escaped (src : string) (dst_size dst_idx : Z) :
  well_escaped (json_escape_loop src dst_size dst_idx) = true
  /\ well_escaped (json_escape src dst_size) = true.
Proof.
  assert (H : forall s d i, well_escaped (json_escape_loop s d i) = true).
  { clear. induction s as [|c rest IH]; intros d i; [reflexivity|].
    cbn [json_escape_loop].
    destruct (i <? to_u64 (d - 2)); [|reflexivity].
    destruct (i <? to_u64 (d - 3)).
    - switch_cases c ltac:(cbn; apply IH).
      destruct (Z.leb_spec 32 (char_value c)) as [Hc|Hc]; [|apply IH].
      cbn [well_escaped]. rewrite Ebs, Edq, IH. cbn [negb andb].
      rewrite andb_true_r. apply Z.leb_le.
      pose proof (char_value_le_byte_value c). lia.
    - switch_cases c ltac:(apply IH).
      destruct (Z.leb_spec 32 (char_value c)) as [Hc|Hc]; [|apply IH].
      cbn [well_escaped]. rewrite Ebs, Edq, IH. cbn [negb andb].
      rewrite andb_true_r. apply Z.leb_le.
      pose proof (char_value_le_byte_value c). lia. }
  split; [apply H | apply H].
Qed.

Lemma json_unescape_escape_bytes (src : string) :
  all_bytes_kept src = true -> json_unescape (json_escape_bytes src) = src.
Proof.
  induction src as [|c rest IH]; intros K; [reflexivity|].
  cbn [all_bytes_kept] in K. apply andb_prop in K. destruct K as [Kc Kr].
  specialize (IH Kr). cbn [json_escape_bytes]. unfold json_escape_byte.
  destruct (Ascii.eqb_spec c dquote) as [->|Ndq]; [cbn; now rewrite IH|].
  destruct (Ascii.eqb_spec c backslash) as [->|Nbs]; [cbn; now rewrite IH|].
  destruct (Ascii.eqb_spec c newline) as [->|Nnl]; [cbn; now rewrite IH|].
  destruct (Ascii.eqb_spec c carriage_return) as [->|Ncr]; [cbn; now rewrite IH|].
  destruct (Ascii.eqb_spec c tab) as [->|Ntab]; [cbn; now rewrite IH|].
  cbn [orb] in Kc. rewrite Kc. cbn [append chr json_unescape].
  destruct (Ascii.eqb_spec c backslash) as [->|_]; [congruence|].
  now rewrite IH.
Qed.

(** X7.  Escaping loses nothing but the bytes it drops: for a source with
    no dropped byte and a buffer with room for two characters per byte,
    undoing the five escapes of the output gives the source back; two such
    sources with the same output are the same. *)
Theorem X7_json_escape_can_be_read_back (src : string) (dst_size : Z) :
  all_bytes_kept src = true ->
  2 * Z.of_nat (String.length src) + 2 <= dst_size < UINT64_MOD ->
  json_unescape (json_escape src dst_size) = src
  /\ (forall src' : string,
        all_bytes_kept src' = true ->
        2 * Z.of_nat (String.length src') + 2 <= dst_size ->
        json_escape src' dst_size = json_escape src dst_size -> src' = src).
Proof.
  intros K Hs.
  assert (R : forall s, all_bytes_kept s = true ->
                2 * Z.of_nat (String.length s) + 2 <= dst_size ->
                json_unescape (json_escape s dst_size) = s).
  { intros s Ks Hl. destruct s as [|c r]; [reflexivity|].
    assert (4 <= dst_size)
      by (cbn [String.length] in Hl; rewrite Nat2Z.inj_succ in Hl; lia).
    unfold json_escape.
    rewrite json_escape_loop_with_room;
      [now apply json_unescape_escape_bytes | lia | |];
      rewrite to_u64_small; lia. }
  split; [apply R; [exact K | lia]|].
  intros src' K' Hl' E. rewrite <- (R src' K' Hl'), E. apply R; [exact K | lia].
Qed.

(** *** The walk as a sequence of insertions *)

(** X8.  A walk is a sequence of insertions: whatever [lstat], [opendir] or
    [malloc] calls fail on the way, [crawl_filesystem] leaves the list, the
    counter, stdout and the allocator as one call of [add_file_entry] per
    visible object beneath the directory leaves them, made parent first and
    in [readdir] order.  So it never adds more records than there are
    visible objects. *)
Theorem X8_crawl_is_one_insertion_per_visible_object
    (path : string) (o : fsobj) (st : state) :
  let st' := snd (crawl_filesystem path o st) in
  let calls := add_all (beneath path o) st in
  file_list st' = file_list calls
  /\ file_count st' = file_count calls
  /\ out st' = out calls
  /\ mallocs st' = mallocs calls
  /\ (List.length (file_list st')
      <= List.length (file_list st) + List.length (beneath path o))%nat.
Proof.
  intros st' calls.
  destruct (crawl_same_as_add_all o path st st (same_but_err_refl st))
    as (L & C & O & M).
  fold st' calls in L, C, O, M. repeat split; try assumption.
  rewrite L. apply add_all_length.
Qed.

(** *** What every stored entry satisfies *)

Lemma new_entry_fits (path name : string) (inode size mtime mode : Z) :
  entry_fits (new_entry path name inode size mtime mode).
Proof.
  unfold entry_fits, new_entry, to_u64, to_u32. cbn.
  pose proof (length_str_take 4095 path). pose proof (length_str_take 255 name).
  repeat split; try assumption;
    try (apply Z.mod_pos_bound; reflexivity).
Qed.

Lemma add_file_entry_Forall (P : file_entry -> Prop)
    (path name : string) (inode size mtime mode : Z) (st : state) :
  P (new_entry path name inode size mtime mode) ->
  Forall P (file_list st) ->
  Forall P (file_list (add_file_entry path name inode size mtime mode st)).
Proof.
  intros Hn H. unfold add_file_entry.
  destruct (mallocs st) as [|[|] ?]; cbn; try constructor; assumption.
Qed.

Lemma add_all_Forall (P : file_entry -> Prop) (calls : list add_args) :
  forall st : state,
    Forall (fun a => P (entry_of a)) calls ->
    Forall P (file_list st) -> Forall P (file_list (add_all calls st)).
Proof.
  induction calls as [|a calls IH]; intros st Hc H; [exact H|].
  inversion Hc as [|? ? Ha Hr]; subst.
  apply IH; [exact Hr|]. now apply add_file_entry_Forall.
Qed.

Lemma Forall_trivial (A : Type) (P : A -> Prop) (l : list A) :
  (forall a, P a) -> Forall P l.
Proof. intros H. induction l; constructor; auto. Qed.

(** X9.  Every function that writes the store keeps each entry within the
    arrays of [struct file_entry] and the ranges of its integer members:
    paths of at most 4095 characters, names of at most 255, inode, size and
    mtime below 2^64, mode below 2^32.  This holds for any arguments, any
    tree and any item, and whichever allocations fail. *)
Theorem X9_stored_entries_fit_their_fields (st : state) :
  Forall entry_fits (file_list st) ->
  (forall (path name : string) (inode size mtime mode : Z),
      Forall entry_fits
        (file_list (add_file_entry path name inode size mtime mode st)))
  /\ (forall (path : string) (o : fsobj),
        Forall entry_fits (file_list (snd (crawl_filesystem path o st))))
  /\ (forall (objectid item_len : Z) (item_data : list byte) (path : string)
             (st' : state),
        snd (process_inode_item objectid item_data item_len path st) = Some st' ->
        Forall entry_fits (file_list st')).
Proof.
  intros H. split; [|split].
  - intros. apply add_file_entry_Forall; [apply new_entry_fits | exact H].
  - intros path o.
    destruct (crawl_same_as_add_all o path st st (same_but_err_refl st)) as (-> & _).
    apply add_all_Forall; [|exact H].
    apply Forall_trivial. intros a. apply new_entry_fits.
  - intros objectid item_len item_data path st' E.
    unfold process_inode_item in E.
    destruct (item_len <? sizeof simple_inode_item);
      [injection E as <-; exact H|].
    unfold bind, ret in E.
    destruct (get_le64 (offsetof simple_inode_item "size") item_data) as [t1 [v1|]];
      [|discriminate].
    destruct (get_le64 (offsetof simple_inode_item "mtime") item_data) as [t2 [v2|]];
      [|discriminate].
    destruct (get_le32 (offsetof simple_inode_item "mode") item_data) as [t3 [v3|]];
      [|discriminate].
    cbn in E. injection E as <-.
    apply add_file_entry_Forall; [apply new_entry_fits | exact H].
Qed.

(** X10.  For an entry that fits its fields, the two buffers of
    [output_json] are never too small: the path and the name are escaped
    whole, byte by byte, and nothing is cut. *)
Theorem X10_output_json_never_cuts_a_stored_string (e : file_entry) :
  entry_fits e ->
  nth 0 (json_fields e) "" = json_escape_bytes (fe_path e)
  /\ nth 1 (json_fields e) "" = json_escape_bytes (fe_name e).
Proof.
  intros (Hp & Hn & _). cbn [json_fields nth]. unfold json_escape.
  split; apply json_escape_loop_with_room; try lia;
    rewrite to_u64_small; unfold UINT64_MOD; lia.
Qed.

Lemma is_dot_str_take (d_name : string) :
  is_dot d_name = false -> is_dot (str_take 255 d_name) = false.
Proof.
  destruct d_name as [|a [|b [|c r]]]; intros H; exact H.
Qed.

Lemma beneath_names (o : fsobj) :
  forall path : string,
    Forall (fun a => is_dot (a_name a) = false) (beneath path o).
Proof.
  induction o as [l|l entries IH] using fsobj_ind; intros path; [constructor|].
  cbn [beneath].
  induction entries as [|[d_name [[s|] d]] rest IHrest]; [constructor | |];
    inversion IH as [|? ? IHchild IHrest']; subst;
    cbn [beneath_entries]; destruct (is_dot d_name) eqn:E;
    try (now apply IHrest).
  constructor; [exact E|]. apply Forall_app. split; [|now apply IHrest].
  destruct (S_ISDIR (st_mode s)); [apply IHchild | constructor].
Qed.

(** X11.  The walk makes no record for [.] or [..]: if no entry of the
    list bears one of these names before a walk, none does after it, at
    whatever depth the pseudo-entries occur and whatever else fails. *)
Theorem X11_crawl_records_no_pseudo_entry (path : string) (o : fsobj) (st : state) :
  Forall (fun e => is_dot (fe_name e) = false) (file_list st) ->
  Forall (fun e => is_dot (fe_name e) = false)
         (file_list (snd (crawl_filesystem path o st))).
Proof.
  intros H.
  destruct (crawl_same_as_add_all o path st st (same_but_err_refl st)) as (-> & _).
  apply add_all_Forall; [|exact H].
  eapply Forall_impl; [|apply beneath_names].
  intros a Ha. cbn. now apply is_dot_str_take.
Qed.

(** *** main from end to end *)

(** X12.  From end to end: when the options are accepted, the path is a
    directory and it can be opened, [main] gathers the store that one call
    of [add_file_entry] per visible object beneath the path builds, and
    prints its document in the format of the last [-f] (JSON without one).
    When [gmtime] converts every modification time of the store the document
    is whole and the exit code is 0; otherwise the process dies after the
    part of the document that comes before the first entry that it does not
    convert.  Failures of [lstat] or [opendir] beneath the root change which
    objects are visible and failures of [malloc] which of them are stored;
    the outcome of the probe changes nothing. *)
Theorem X12_main_prints_the_visible_objects
    (i : invocation) (st : state) (path : string) (rest : list string) (s : stat) :
  forallb accepted_format (options i) = true ->
  operands i = path :: rest ->
  stat_result i = ok s -> S_ISDIR (st_mode s) = true ->
  opendir_result (root i) <> None ->
  let format := selected_format (options i) "json" in
  let gathered := add_all (beneath path (root i)) st in
  (printable (file_list gathered) = true ->
   fst (main i st) = exited 0
   /\ out (snd (main i st)) = out st ++ document format gathered)
  /\ (printable (file_list gathered) = false ->
      fst (main i st) = killed
      /\ out (snd (main i st)) = out st ++ cut_document format gathered).
Proof.
  intros Ha Hop Hst Hdir Hroot format gathered.
  now destruct (main_gathers i st path rest s Ha Hop Hst Hdir Hroot)
    as (_ & _ & _ & Hp & Hk).
Qed.

(** X14.  [main] ends in one of three ways.  With exit code 1 it has added
    to stdout nothing or, for an unrecognised option or a missing path, the
    usage text.  With exit code 0 it has added the usage text (for [-h]) or
    one whole document of the objects beneath the path.  Or the process dies
    in the emitter, and stdout has received a document that is cut short at
    the first record whose modification time [gmtime] does not convert. *)
Theorem X14_main_writes_nothing_usage_or_one_document (i : invocation) (st : state) :
  (fst (main i st) = exited 1
   /\ (out (snd (main i st)) = out st
       \/ out (snd (main i st)) = out st ++ usage (prog i)))
  \/ (fst (main i st) = exited 0
      /\ (out (snd (main i st)) = out st ++ usage (prog i)
          \/ exists (path : string) (rest : list string),
               operands i = path :: rest
               /\ printable (file_list (add_all (beneath path (root i)) st)) = true
               /\ out (snd (main i st))
                  = out st ++ document (selected_format (options i) "json")
                                       (add_all (beneath path (root i)) st)))
  \/ (fst (main i st) = killed
      /\ exists (path : string) (rest : list string),
           operands i = path :: rest
           /\ printable (file_list (add_all (beneath path (root i)) st)) = false
           /\ out (snd (main i st))
              = out st ++ cut_document (selected_format (options i) "json")
                                       (add_all (beneath path (root i)) st)).
Proof.
  pose proof (getopt_loop_cases (prog i) (options i) "json" st) as G.
  pose proof (main_phases i st) as P.
  destruct (getopt_loop (prog i) (options i) "json" st)
    as [[code st']|[format st']] eqn:EG.
  - rewrite P.
    destruct G as [(-> & msg & ->) | [(-> & ->) | (-> & d & ->)]].
    + left. split; [reflexivity | now left].
    + right. left. split; [reflexivity | now left].
    + left. split; [reflexivity | now right].
  - destruct G as (-> & Ha & ->).
    destruct (operands i) as [|path rest] eqn:Hop.
    { rewrite P. left. split; [reflexivity|]. right.
      rewrite print_usage_prints. reflexivity. }
    destruct (stat_result i) as [s|e] eqn:Hst.
    2:{ rewrite P. left. split; [reflexivity | now left]. }
    destruct (S_ISDIR (st_mode s)) eqn:Hdir.
    2:{ rewrite P. left. split; [reflexivity | now left]. }
    destruct (opendir_result (root i)) as [entries|] eqn:E.
    + destruct (main_gathers i st path rest s Ha Hop Hst Hdir ltac:(congruence))
        as (_ & _ & _ & Hp & Hk).
      destruct (printable (file_list (add_all (beneath path (root i)) st))) eqn:Pr.
      * destruct (Hp eq_refl) as [R O]. right. left.
        split; [exact R|]. right. exists path, rest.
        split; [reflexivity|]. split; [exact Pr | exact O].
      * destruct (Hk eq_refl) as [R O]. right. right.
        split; [exact R|]. exists path, rest.
        split; [reflexivity|]. split; [exact Pr | exact O].
    + rewrite P. cbn [negb]. rewrite gather_crawls, crawl_unopened by exact E.
      left. split; [reflexivity | now left].
Qed.

(** X15.  The options are taken in order and the first one that is not an
    accepted [-f] ends the run, whatever follows it on the command line and
    whatever the path is: [-h] prints the usage text and exits with 0, an
    unrecognised option prints it and exits with 1, and a format other than
    json or csv is reported on stderr with exit code 1 and nothing on
    stdout. *)
Theorem X15_first_decisive_option_ends_the_run
    (i : invocation) (st : state) (pre post : list getopt_result) (o : getopt_result) :
  options i = (pre ++ o :: post)%list ->
  forallb accepted_format pre = true ->
  accepted_format o = false ->
  main i st
  = match o with
    | opt_h => (exited 0, printf (usage (prog i)) st)
    | opt_other diagnostic =>
        (exited 1, printf (usage (prog i)) (eprintf diagnostic st))
    | opt_f optarg =>
        (exited 1, eprintf ("Error: Invalid format '" ++ optarg
                              ++ "'. Use 'json' or 'csv'." ++ nl) st)
    end.
Proof. apply main_decisive_option. Qed.

(** X16.  A modification time passes through the store unchanged: the
    crawler hands the signed [st_mtime] to a [uint64_t] member and
    [timestamp_to_iso] converts the member back to [time_t], so every time
    of the 64-bit range, also one before 1970, is given to [gmtime] as
    [lstat] returned it, in the JSON and in the CSV output. *)
Theorem X16_mtime_survives_the_store
    (path name : string) (inode size mtime mode : Z) :
  - 2 ^ 63 <= mtime < 2 ^ 63 ->
  let e := new_entry path name inode size mtime mode in
  timestamp_to_iso (fe_mtime e)
  = (if gmtime_null mtime then None else Some (strftime_gmtime mtime))
  /\ nth 4 (json_fields e) "" = strftime_gmtime mtime
  /\ nth 4 (csv_fields e) "" = strftime_gmtime mtime.
Proof.
  intros H e.
  assert (E : to_time_t (fe_mtime e) = mtime).
  { unfold to_time_t, e. cbn [new_entry fe_mtime].
    unfold to_u64, UINT64_MOD. rewrite Z.mod_mod by lia.
    change (2 ^ 63) with 9223372036854775808 in *.
    change (2 ^ 64) with 18446744073709551616.
    destruct (Z.ltb_spec (mtime mod 18446744073709551616) 9223372036854775808)
      as [Hlt|Hge].
    - destruct (Z_lt_le_dec mtime 0) as [Hneg|Hpos].
      + rewrite <- (Z.mod_add mtime 1) in Hlt by lia.
        rewrite Z.mod_small in Hlt by lia. lia.
      + apply Z.mod_small. lia.
    - destruct (Z_lt_le_dec mtime 0) as [Hneg|Hpos].
      + rewrite <- (Z.mod_add mtime 1) by lia.
        rewrite Z.mod_small by lia. lia.
      + rewrite Z.mod_small in Hge by lia. lia. }
  unfold timestamp_to_iso. cbn [json_fields csv_fields nth]. rewrite E.
  repeat split.
Qed.

(** *** simple_path_name *)

Lemma string_of_uint_no_slash (u : Decimal.uint) :
  strrchr (NilEmpty.string_of_uint u) "/" = None.
Proof. induction u; cbn [NilEmpty.string_of_uint strrchr]; rewrite ?IHu; reflexivity. Qed.

Lemma decimal_no_slash (z : Z) : strrchr (decimal z) "/" = None.
Proof.
  unfold decimal. destruct (Z.to_int z) as [u|u];
    cbn [NilZero.string_of_int]; unfold NilZero.string_of_uint.
  - destruct u; try reflexivity; apply string_of_uint_no_slash.
  - cbn [strrchr].
    destruct u; try reflexivity; now rewrite string_of_uint_no_slash.
Qed.

(** X17.  [simple_path_name] never writes past [path_size]: with size 0 it
    leaves the buffer as it is, and otherwise it stores at most
    [path_size - 1] characters.  When the buffer has room, the path is
    [/inode_] followed by the number, and the name [process_inode_item]
    derives from that path is [inode_] followed by the number. *)
Theorem X17_simple_path_name_fits_and_names_the_inode
    (inode : Z) (path : string) (path_size : Z) :
  0 <= path_size ->
  (path_size = 0 -> simple_path_name inode path path_size = path)
  /\ (0 < path_size ->
      Z.of_nat (String.length (simple_path_name inode path path_size))
      <= path_size - 1)
  /\ (Z.of_nat (String.length ("/inode_" ++ decimal inode)) < path_size ->
      simple_path_name inode path path_size = "/inode_" ++ decimal inode
      /\ name_of_path (simple_path_name inode path path_size)
         = "inode_" ++ decimal inode).
Proof.
  intros H0. unfold simple_path_name. split; [|split].
  - intros ->. reflexivity.
  - intros Hp. replace (path_size =? 0) with false by (symmetry; apply Z.eqb_neq; lia).
    pose proof (length_str_take (Z.to_nat (path_size - 1)) ("/inode_" ++ decimal inode)).
    lia.
  - intros Hl.
    replace (path_size =? 0) with false by (symmetry; apply Z.eqb_neq; lia).
    rewrite str_take_all by lia. split; [reflexivity|].
    unfold name_of_path. cbn [append strrchr].
    rewrite decimal_no_slash. reflexivity.
Qed.

End Indexer.

(** ** The model at work

    From here on the platform is fixed where a statement needs one: plain
    [char] signed as on x86-64 Linux unless said otherwise, [gmtime_iso8601]
    and [gmtime_out_of_range] for the C library, 16 bytes for the unnamed
    timestamp structure. *)

Example gmtime_iso8601_epoch : gmtime_iso8601 0 = "1970-01-01T00:00:00Z".
Proof. reflexivity. Qed.

Example gmtime_iso8601_leap_day : gmtime_iso8601 951782400 = "2000-02-29T00:00:00Z".
Proof. reflexivity. Qed.

Example gmtime_iso8601_2023 : gmtime_iso8601 1700000000 = "2023-11-14T22:13:20Z".
Proof. reflexivity. Qed.

(** The last second that [gmtime] converts is the last one of the year
    2147485547, the largest that [tm_year] can hold. *)
Example gmtime_last_second :
  gmtime_out_of_range 67768036191676799 = false
  /\ gmtime_iso8601 67768036191676799 = "2147485547-12-31T23:59:59Z"
  /\ gmtime_out_of_range unconvertible_mtime = true.
Proof. repeat split. Qed.

Example json_escape_quote_backslash_controls :
  json_escape true ("a" ++ q ++ "b\c" ++ nl ++ cr ++ chr tab ++ chr (ascii_of_nat 1) ++ "d") 512
  = "a\" ++ q ++ "b\\c\n\r\td".
Proof. reflexivity. Qed.

(** The first scenario of the specification: three records, one of them a
    directory, and exit code 0. *)
Example scenario_three_records :
  let r := main true gmtime_iso8601 gmtime_out_of_range 1700000000 scenario_run
             (initial_state []) in
  fst r = exited 0
  /\ file_count (snd r) = 3
  /\ map is_directory (beneath "/r" scenario_root) = [false; true; false]
  /\ map a_name (beneath "/r" scenario_root) = ["a.txt"; "d"; "b.txt"].
Proof. repeat split. Qed.

(** An empty directory: exit code 0 and a document without objects. *)
Example scenario_empty_directory :
  let r := main true gmtime_iso8601 gmtime_out_of_range 1700000000 empty_run
             (initial_state []) in
  fst r = exited 0 /\ out (snd r) = json_document 1700000000 0 [].
Proof. split; reflexivity. Qed.

(** A regular file as the path: exit code 1 and nothing on stdout. *)
Example scenario_regular_file :
  let r := main true gmtime_iso8601 gmtime_out_of_range 1700000000 file_run
             (initial_state []) in
  fst r = exited 1 /\ out (snd r) = "".
Proof. split; reflexivity. Qed.

(** A request for help is served before the path is looked at. *)
Example help_comes_first :
  main true gmtime_iso8601 gmtime_out_of_range 0 help_run (initial_state [])
  = (exited 0, print_usage "indexer" (initial_state [])).
Proof. reflexivity. Qed.

(** A file whose modification time [gmtime] does not convert ends the run
    with a signal, in either format, after the records in front of it. *)
Example unconvertible_mtime_kills_the_run :
  let json := main true gmtime_iso8601 gmtime_out_of_range 0 unconvertible_run
                (initial_state []) in
  let csv := main true gmtime_iso8601 gmtime_out_of_range 0
               (mk_invocation "indexer" [opt_f "csv"] ["/r"] directory_stat (ok tt)
                  false unconvertible_root)
               (initial_state []) in
  fst json = killed
  /\ fst csv = killed
  /\ out (snd csv)
     = "path,name,inode,size,mtime,mode,is_dir" ++ nl
       ++ q ++ "/r/a.txt" ++ q ++ "," ++ q ++ "a.txt" ++ q ++ ",12,2,"
       ++ q ++ "1970-01-01T00:00:00Z" ++ q ++ ",33188,false" ++ nl.
Proof. repeat split. Qed.

(** Witness of C1 on three calls. *)
Lemma C1_witness :
  mallocs_succeed (initial_state [])
  /\ file_list (initial_state []) = []
  /\ file_list (add_all sample_calls (initial_state [])) = rev (map entry_of sample_calls)
  /\ nth_error (file_list (add_all sample_calls (initial_state []))) 0
     = nth_error (map entry_of sample_calls) 2
  /\ printable gmtime_out_of_range (rev (map entry_of sample_calls)) = true
  /\ output_csv gmtime_iso8601 gmtime_out_of_range
       (add_all sample_calls (initial_state []))
     = returns
         (printf
            (csv_document
               (map (csv_row gmtime_iso8601) (rev (map entry_of sample_calls))))
            (add_all sample_calls (initial_state []))).
Proof.
  assert (M : mallocs_succeed (initial_state [])) by constructor.
  split; [exact M|]. split; [reflexivity|].
  destruct (C1_store_lists_newest_first true gmtime_iso8601 gmtime_out_of_range 0
              sample_calls (initial_state []) M eq_refl) as (L & K & P & _).
  split; [exact L|]. split; [apply (K 1%nat); simpl; lia|].
  split; [reflexivity|]. apply (P eq_refl).
Defined.

(** Witness of C4 on the first scenario: N = 2, M = 1, three records. *)
Lemma C4_witness :
  walkable scenario_root = true
  /\ paths_fit "/r" scenario_root = true
  /\ mallocs_succeed (initial_state [])
  /\ non_directories_beneath "/r" scenario_root = 2%nat
  /\ directories_beneath "/r" scenario_root = 1%nat
  /\ List.length
       (file_list (snd (crawl_filesystem "/r" scenario_root (initial_state []))))
     = (List.length (file_list (initial_state []))
        + (non_directories_beneath "/r" scenario_root
           + directories_beneath "/r" scenario_root))%nat.
Proof.
  assert (M : mallocs_succeed (initial_state [])) by constructor.
  split; [reflexivity|]. split; [reflexivity|]. split; [exact M|].
  split; [reflexivity|]. split; [reflexivity|].
  apply (C4_one_record_per_object_beneath_the_root "/r" scenario_root
           (initial_state []) eq_refl eq_refl M).
Defined.

(** C4, counterexample.  In a tree where every [lstat] and every [opendir]
    succeeds, with one object beneath the root, the crawler produces no
    record when the allocation for it fails. *)
Lemma C4_no_record_when_allocation_fails :
  let o := directory 2 [("a.txt", regular_file 12 2)] in
  walkable o = true
  /\ non_directories_beneath "/r" o = 1%nat
  /\ directories_beneath "/r" o = 0%nat
  /\ fst (crawl_filesystem "/r" o (initial_state [false])) = 0
  /\ file_list (snd (crawl_filesystem "/r" o (initial_state [false]))) = []
  /\ file_count (snd (crawl_filesystem "/r" o (initial_state [false]))) = 0.
Proof. repeat split. Qed.

(** Witness of C5: of the two records of [unconvertible_root] the one in
    front is printed, after a [total_files] of 2, and the process dies at the
    other. *)
Lemma C5_witness :
  let st := snd (crawl_filesystem "/r" unconvertible_root (initial_state [])) in
  let a_txt := new_entry "/r/a.txt" "a.txt" 12 2 0 33188 in
  let z_bin := new_entry "/r/z.bin" "z.bin" 15 0 unconvertible_mtime 33188 in
  count_matches st
  /\ Z.of_nat (List.length (file_list st)) <= INT_MAX
  /\ file_list st = ([a_txt] ++ z_bin :: [])%list
  /\ printable gmtime_out_of_range [a_txt] = true
  /\ convertible gmtime_out_of_range z_bin = false
  /\ output_json true gmtime_iso8601 gmtime_out_of_range 0 st
     = dies (printf (json_cut_short 0 2 [json_object true gmtime_iso8601 a_txt]) st)
  /\ (1 < file_count st).
Proof.
  intros st a_txt z_bin.
  assert (C : count_matches st) by reflexivity.
  assert (B : Z.of_nat (List.length (file_list st)) <= INT_MAX)
    by (apply Z.leb_le; reflexivity).
  split; [exact C|]. split; [exact B|].
  split; [reflexivity|]. split; [reflexivity|]. split; [reflexivity|].
  apply (C5_total_files_can_exceed_the_objects true gmtime_iso8601
           gmtime_out_of_range 0 st [a_txt] [] z_bin C B eq_refl eq_refl eq_refl).
Defined.

(** Witness of C6 on the tree with the directory that cannot be opened:
    the store ends with the records of [b.txt], [d], [locked] and [a.txt]. *)
Lemma C6_witness :
  is_dot "locked" = false
  /\ S_ISDIR (st_mode (mk_stat 20 4096 0 16832)) = true
  /\ fst (crawl_filesystem "/r" locked_root (initial_state [])) = 0
  /\ file_list (snd (crawl_filesystem "/r" locked_root (initial_state [])))
     = [ new_entry "/r/d/b.txt" "b.txt" 14 0 0 33188;
         new_entry "/r/d" "d" 13 4096 0 16877;
         new_entry "/r/locked" "locked" 20 4096 0 16832;
         new_entry "/r/a.txt" "a.txt" 12 2 0 33188 ]
  /\ fst (main true gmtime_iso8601 gmtime_out_of_range 0 locked_run (initial_state []))
     = exited 0.
Proof.
  assert (H1 : is_dot "locked" = false) by reflexivity.
  assert (H2 : S_ISDIR (st_mode (mk_stat 20 4096 0 16832)) = true) by reflexivity.
  split; [exact H1|]. split; [exact H2|].
  destruct (C6_unopenable_subdirectory_is_skipped true gmtime_iso8601
              gmtime_out_of_range 0 "/r" (Some (mk_stat 2 4096 0 16877))
              (dot_entries ++ [("a.txt", regular_file 12 2)])%list
              [("d", directory 13 [("b.txt", regular_file 14 0)])]
              "locked" (mk_stat 20 4096 0 16832) (initial_state []) H1 H2)
    as (_ & R & _ & _ & _ & L & _ & _ & Hmain).
  split; [exact R|]. split; [apply L; constructor|].
  apply (Hmain locked_run (initial_state []) "/r" [] (mk_stat 2 4096 0 16877)
           eq_refl eq_refl eq_refl eq_refl eq_refl).
  reflexivity.
Defined.

(** Witness of C7: the probe of [scenario_run] fails at the ioctl. *)
Lemma C7_witness :
  probe_fails scenario_run = true
  /\ fst (main true gmtime_iso8601 gmtime_out_of_range 0 scenario_run (initial_state []))
     = fst (main true gmtime_iso8601 gmtime_out_of_range 0
              (with_probe (ok tt) true scenario_run) (initial_state []))
  /\ out (snd (main true gmtime_iso8601 gmtime_out_of_range 0 scenario_run
                 (initial_state [])))
     = out (snd (main true gmtime_iso8601 gmtime_out_of_range 0
                   (with_probe (ok tt) true scenario_run) (initial_state []))).
Proof.
  split; [reflexivity|].
  apply (C7_probe_failure_is_reported_and_falls_back true gmtime_iso8601
           gmtime_out_of_range 0 scenario_run "/r" (initial_state []) eq_refl).
Defined.



(** Witness of C9 on an item of exactly the size of the layout. *)
Lemma C9_witness :
  12 <= 16
  /\ 176 <= Z.of_nat (List.length sample_item)
  /\ sizeof (simple_inode_item 16) <= 176
  /\ exists (reads : list Z) (name : string) (size mtime mode : Z),
       process_inode_item 16 5 sample_item 176 "/mnt/inode_5" (initial_state [])
       = (reads, Some (add_file_entry "/mnt/inode_5" name 5 size mtime mode
                         (initial_state [])))
       /\ reads = [23; 22; 21; 20; 19; 18; 17; 16;
                   151; 150; 149; 148; 147; 146; 145; 144;
                   55; 54; 53; 52]
       /\ Forall (fun i => 0 <= i < 176) reads.
Proof.
  assert (H1 : 12 <= 16) by lia.
  assert (H2 : 176 <= Z.of_nat (List.length sample_item))
    by (apply Z.leb_le; reflexivity).
  assert (H3 : sizeof (simple_inode_item 16) <= 176)
    by (apply Z.leb_le; reflexivity).
  split; [exact H1|]. split; [exact H2|]. split; [exact H3|].
  apply (proj1 (C9_inode_item_is_read_within_item_len 16 5 176 sample_item
                  "/mnt/inode_5" (initial_state []) H1 H2) H3).
Defined.

(** Witness of C10: the first allocation of the first scenario fails, and
    the run exits with 0 after a document that holds the records of [b.txt]
    and [d] and none of [a.txt]. *)
Lemma C10_witness :
  forallb accepted_format (options scenario_run) = true
  /\ fst (main true gmtime_iso8601 gmtime_out_of_range 0 scenario_run
            (initial_state [false])) = exited 0
  /\ stored (beneath "/r" scenario_root) [false]
     = [ mk_add_args "/r/d" "d" 13 4096 0 16877;
         mk_add_args "/r/d/b.txt" "b.txt" 14 0 0 33188 ]
  /\ exists (path : string) (rest : list string),
       operands scenario_run = path :: rest
       /\ out (snd (main true gmtime_iso8601 gmtime_out_of_range 0 scenario_run
                      (initial_state [false])))
          = json_document 0 2
              (map (json_object true gmtime_iso8601)
                 (rev (map entry_of (stored (beneath path (root scenario_run))
                                            [false])))).
Proof.
  assert (H1 : forallb accepted_format (options scenario_run) = true) by reflexivity.
  assert (H2 : fst (main true gmtime_iso8601 gmtime_out_of_range 0 scenario_run
                      (initial_state [false])) = exited 0) by reflexivity.
  split; [exact H1|]. split; [exact H2|]. split; [reflexivity|].
  destruct (proj1 (proj2 (proj2
              (C10_failed_allocation_drops_the_record_silently true gmtime_iso8601
                 gmtime_out_of_range 0)))
              scenario_run [false] H1 eq_refl H2) as (path & rest & Hop & O & _).
  exists path, rest. split; [exact Hop|].
  injection Hop as <- <-. exact O.
Defined.

(** C3, counterexample.  For a name that holds a double quote the two
    emitters do not print the same field values: JSON prints the name
    escaped, CSV prints it as it is. *)
Lemma C3_csv_prints_the_name_unescaped :
  let e := new_entry ("/r/" ++ quoted_name) quoted_name 12 2 0 33188 in
  json_fields false gmtime_iso8601 e <> csv_fields gmtime_iso8601 e
  /\ nth 1 (json_fields false gmtime_iso8601 e) "" = "a\" ++ q ++ "b"
  /\ nth 1 (csv_fields gmtime_iso8601 e) "" = "a" ++ q ++ "b".
Proof.
  split; [|split; reflexivity].
  vm_compute. intros H. discriminate H.
Qed.

(** Witness of C3 on the store of the first scenario, and on the store in
    which [z.bin] has a modification time that [gmtime] does not convert. *)
Lemma C3_witness :
  let st := add_all sample_calls (initial_state []) in
  let st' := add_all (beneath "/r" unconvertible_root) (initial_state []) in
  printable gmtime_out_of_range (file_list st) = true
  /\ output_csv gmtime_iso8601 gmtime_out_of_range st
     = returns
         (printf
            (csv_document
               (map (fun e => csv_frame (csv_fields gmtime_iso8601 e)) (file_list st)))
            st)
  /\ printable gmtime_out_of_range (file_list st') = false
  /\ convertible_prefix gmtime_out_of_range (file_list st')
     = [new_entry "/r/a.txt" "a.txt" 12 2 0 33188]
  /\ output_csv gmtime_iso8601 gmtime_out_of_range st'
     = dies
         (printf
            (csv_document
               (map (fun e => csv_frame (csv_fields gmtime_iso8601 e))
                  (convertible_prefix gmtime_out_of_range (file_list st'))))
            st').
Proof.
  intros st st'.
  split; [reflexivity|]. split.
  - apply (proj1 (C3_emitters_agree_except_for_escaping true gmtime_iso8601
                    gmtime_out_of_range 0 st) eq_refl).
  - split; [reflexivity|]. split; [reflexivity|].
    apply (proj1 (proj2 (C3_emitters_agree_except_for_escaping true gmtime_iso8601
                           gmtime_out_of_range 0 st')) eq_refl).
Defined.

(** C7, counterexample.  A failing probe is not silent: it returns -1 after
    writing a line that starts with [Error:] to stderr. *)
Lemma C7_probe_error_is_written_to_stderr :
  let r := search_btrfs_metadata "/r" (ok tt) false scenario_root (initial_state []) in
  fst r = -1
  /\ err (snd r) = "Error: /r is not a btrfs filesystem or lacks permissions" ++ nl
  /\ err (snd r) <> err (initial_state []).
Proof.
  split; [reflexivity|]. split; [reflexivity|].
  vm_compute. intros H. discriminate H.
Qed.

(** C2.  Where plain [char] is signed, [src[i] >= 32] is false for every
    byte from 128 to 255, so [json_escape] drops the two bytes of a UTF-8
    character that the documented rule passes unchanged, and the object
    printed for a file of that name has an empty name; where plain [char] is
    unsigned the bytes pass. *)
Theorem C2_signed_char_drops_bytes_above_127 :
  json_escape true accented_name 512 = ""
  /\ documented_escape accented_name = accented_name
  /\ json_escape false accented_name 512 = accented_name
  /\ nth 1 (json_fields true gmtime_iso8601
              (new_entry ("/r/" ++ accented_name) accented_name 12 2 0 33188)) "x"
     = "".
Proof. repeat split. Qed.

(** ** Witnesses of the further properties *)

Lemma X1_witness :
  0 <= 16
  /\ 0 <= 4096 < UINT64_MOD
  /\ bytes_at 16 8 encoded_item = le_bytes 8 4096
  /\ snd (get_le64 16 encoded_item) = Some 4096.
Proof.
  assert (H0 : 0 <= 16) by lia.
  assert (Hv : 0 <= 4096 < UINT64_MOD) by (unfold UINT64_MOD; lia).
  split; [exact H0|]. split; [exact Hv|]. split; [reflexivity|].
  apply (proj1 (X1_get_le_reads_back_le_bytes 16 encoded_item 4096 H0) Hv).
  reflexivity.
Defined.

Lemma X2_witness :
  12 <= 16
  /\ sizeof (simple_inode_item 16) <= 176
  /\ snd (process_inode_item 16 257 encoded_item 176 "/mnt/data/report.txt"
            (initial_state []))
     = Some (add_file_entry "/mnt/data/report.txt" "report.txt" 257 4096
               1700000000 33188 (initial_state [])).
Proof.
  assert (H1 : 12 <= 16) by lia.
  assert (H2 : sizeof (simple_inode_item 16) <= 176) by (apply Z.leb_le; reflexivity).
  split; [exact H1|]. split; [exact H2|].
  apply (X2_process_inode_item_decodes_the_item 16 257 176 4096 1700000000 33188
           encoded_item "/mnt/data/report.txt" (initial_state []) H1 H2);
    try reflexivity; unfold UINT64_MOD, UINT32_MOD; lia.
Defined.

Lemma X4_witness :
  2 <= 4 < UINT64_MOD
  /\ Z.of_nat (String.length (json_escape true "abcdef" 4)) <= 4 - 2.
Proof.
  assert (H : 2 <= 4 < UINT64_MOD) by (unfold UINT64_MOD; lia).
  split; [exact H|].
  apply (X4_json_escape_stays_in_its_buffer true "abcdef" 4 H).
Defined.

Lemma X5_witness :
  (1 = 0 \/ 1 = 1)
  /\ 2 * Z.of_nat (String.length "abcdef") + 4 <= UINT64_MOD
  /\ json_escape true "abcdef" 1 = "abcdef".
Proof.
  assert (H1 : 1 = 0 \/ 1 = 1) by (right; reflexivity).
  assert (H2 : 2 * Z.of_nat (String.length "abcdef") + 4 <= UINT64_MOD)
    by (apply Z.leb_le; reflexivity).
  split; [exact H1|]. split; [exact H2|].
  apply (proj1 (X5_json_escape_overruns_a_tiny_buffer true "abcdef" 1 H1 H2)).
Defined.

Lemma X7_witness :
  all_bytes_kept true quoted_name = true
  /\ 2 * Z.of_nat (String.length quoted_name) + 2 <= 512 < UINT64_MOD
  /\ json_unescape (json_escape true quoted_name 512) = quoted_name.
Proof.
  assert (H1 : all_bytes_kept true quoted_name = true) by reflexivity.
  assert (H2 : 2 * Z.of_nat (String.length quoted_name) + 2 <= 512 < UINT64_MOD)
    by (split; [apply Z.leb_le | apply Z.ltb_lt]; reflexivity).
  split; [exact H1|]. split; [exact H2|].
  apply (proj1 (X7_json_escape_can_be_read_back true quoted_name 512 H1 H2)).
Defined.

Lemma X9_witness :
  Forall entry_fits (file_list (initial_state []))
  /\ Forall entry_fits
       (file_list (snd (crawl_filesystem "/r" scenario_root (initial_state [])))).
Proof.
  assert (H : Forall entry_fits (file_list (initial_state []))) by constructor.
  split; [exact H|].
  apply (proj1 (proj2 (X9_stored_entries_fit_their_fields 16 (initial_state []) H))).
Defined.

Lemma X10_witness :
  entry_fits (new_entry "/r/a.txt" "a.txt" 12 2 0 33188)
  /\ nth 1 (json_fields true gmtime_iso8601 (new_entry "/r/a.txt" "a.txt" 12 2 0 33188)) ""
     = json_escape_bytes true "a.txt".
Proof.
  assert (H : entry_fits (new_entry "/r/a.txt" "a.txt" 12 2 0 33188)).
  { unfold entry_fits.
    repeat split; try (apply Nat.leb_le; reflexivity);
      try (apply Z.leb_le; reflexivity); apply Z.ltb_lt; reflexivity. }
  split; [exact H|].
  apply (proj2 (X10_output_json_never_cuts_a_stored_string true gmtime_iso8601 _ H)).
Defined.

Lemma X11_witness :
  Forall (fun e => is_dot (fe_name e) = false) (file_list (initial_state []))
  /\ Forall (fun e => is_dot (fe_name e) = false)
       (file_list (snd (crawl_filesystem "/r" scenario_root (initial_state [])))).
Proof.
  assert (H : Forall (fun e => is_dot (fe_name e) = false)
                (file_list (initial_state []))) by constructor.
  split; [exact H|].
  apply (X11_crawl_records_no_pseudo_entry "/r" scenario_root (initial_state []) H).
Defined.

Lemma X12_witness :
  forallb accepted_format (options scenario_run) = true
  /\ opendir_result (root scenario_run) <> None
  /\ printable gmtime_out_of_range
       (file_list (add_all (beneath "/r" scenario_root) (initial_state []))) = true
  /\ fst (main true gmtime_iso8601 gmtime_out_of_range 0 scenario_run (initial_state []))
     = exited 0
  /\ out (snd (main true gmtime_iso8601 gmtime_out_of_range 0 scenario_run
                 (initial_state [])))
     = document true gmtime_iso8601 0 "json"
         (add_all (beneath "/r" scenario_root) (initial_state []))
  /\ printable gmtime_out_of_range
       (file_list (add_all (beneath "/r" unconvertible_root) (initial_state []))) = false
  /\ fst (main true gmtime_iso8601 gmtime_out_of_range 0 unconvertible_run
            (initial_state []))
     = killed
  /\ out (snd (main true gmtime_iso8601 gmtime_out_of_range 0 unconvertible_run
                 (initial_state [])))
     = json_cut_short 0 2
         [json_object true gmtime_iso8601 (new_entry "/r/a.txt" "a.txt" 12 2 0 33188)].
Proof.
  assert (H : opendir_result (root scenario_run) <> None) by (simpl; discriminate).
  assert (H' : opendir_result (root unconvertible_run) <> None)
    by (simpl; discriminate).
  split; [reflexivity|]. split; [exact H|]. split; [reflexivity|].
  destruct (proj1 (X12_main_prints_the_visible_objects true gmtime_iso8601
                     gmtime_out_of_range 0 scenario_run
                     (initial_state []) "/r" [] (mk_stat 2 4096 0 16877)
                     eq_refl eq_refl eq_refl eq_refl H) eq_refl) as [R O].
  split; [exact R|]. split; [exact O|]. split; [reflexivity|].
  apply (proj2 (X12_main_prints_the_visible_objects true gmtime_iso8601
                  gmtime_out_of_range 0 unconvertible_run
                  (initial_state []) "/r" [] (mk_stat 2 4096 0 16877)
                  eq_refl eq_refl eq_refl eq_refl H') eq_refl).
Defined.

Lemma X15_witness :
  options help_in_the_middle_run = ([opt_f "csv"] ++ opt_h :: [opt_f "xml"])%list
  /\ forallb accepted_format [opt_f "csv"] = true
  /\ accepted_format opt_h = false
  /\ main true gmtime_iso8601 gmtime_out_of_range 0 help_in_the_middle_run
       (initial_state [])
     = (exited 0, printf (usage "indexer") (initial_state [])).
Proof.
  split; [reflexivity|]. split; [reflexivity|]. split; [reflexivity|].
  apply (X15_first_decisive_option_ends_the_run true gmtime_iso8601
           gmtime_out_of_range 0
           help_in_the_middle_run (initial_state []) [opt_f "csv"] [opt_f "xml"] opt_h
           eq_refl eq_refl eq_refl).
Defined.

Lemma X16_witness :
  - 2 ^ 63 <= -86400 < 2 ^ 63
  /\ timestamp_to_iso gmtime_iso8601 gmtime_out_of_range
       (fe_mtime (new_entry "/r/old" "old" 30 0 (-86400) 33188))
     = Some "1969-12-31T00:00:00Z".
Proof.
  assert (H : - 2 ^ 63 <= -86400 < 2 ^ 63) by lia.
  split; [exact H|].
  apply (proj1 (X16_mtime_survives_the_store true gmtime_iso8601 gmtime_out_of_range
                  "/r/old" "old" 30 0 (-86400) 33188 H)).
Defined.

Lemma X17_witness :
  0 <= 4096
  /\ Z.of_nat (String.length ("/inode_" ++ decimal 257)) < 4096
  /\ simple_path_name 257 "" 4096 = "/inode_257"
  /\ name_of_path (simple_path_name 257 "" 4096) = "inode_257".
Proof.
  assert (H0 : 0 <= 4096) by lia.
  assert (H1 : Z.of_nat (String.length ("/inode_" ++ decimal 257)) < 4096)
    by (apply Z.ltb_lt; reflexivity).
  split; [exact H0|]. split; [exact H1|].
  apply (proj2 (proj2 (X17_simple_path_name_fits_and_names_the_inode 257 "" 4096 H0)) H1).
Defined.
